(** * The Notte Node.js SDK: request pipeline and session lifecycle

    A shallow embedding of [packages/notte-node-sdk]:
    - [errors.ts]                  the error taxonomy ([NotteAPIError]),
    - [types/cookie.ts], [types/session.ts]  the zod schemas,
    - [base-client.ts]             [buildUrl], [rawRequest], [request],
                                   [requestList],
    - [sessions/sessions-client.ts] the domain client,
    - [sessions/remote-session.ts]  the lifecycle wrapper [RemoteSession].

    Asynchronous code is modelled in direct style: an [await]ed promise is
    the outcome of the call, a rejection is an [Err].  Mutable objects are
    threaded explicitly as state. *)

From Stdlib Require Import String Ascii List ZArith Bool Lia.
From Stdlib Require Import DecimalString.
Import ListNotations.
Open Scope list_scope.
Open Scope string_scope.

Set Implicit Arguments.
Set Warnings "-register-all".

(* ================================================================== *)
(** * Part I: definitions *)
(* ================================================================== *)

(** ** JavaScript numbers

    The SDK never computes with numbers: it writes integer literals,
    prints numbers ([String(n)], template strings) and classifies them
    (zod's [number()], [int()], [positive()]).  The IEEE representation is
    therefore kept abstract behind these observers. *)

Class JSNumber (number : Type) : Type := {
  number_of_Z : Z -> number;            (* an integer literal, an HTTP status *)
  number_toString : number -> string;   (* String(n) *)
  Number_isInteger : number -> bool;    (* Number.isInteger(n) *)
  Number_isNaN : number -> bool;        (* Number.isNaN(n) *)
  number_gt0 : number -> bool;          (* n > 0 *)
  number_truthy : number -> bool        (* Boolean(n): false for 0, -0, NaN *)
}.

Definition Z_toString (z : Z) : string := NilZero.string_of_int (Z.to_int z).

(** The integers, printed in decimal, are one implementation; it is the one
    used to run the model on concrete inputs.  (It prints as [String(n)]
    does for the integers below 10^21, which is where it is used.) *)
#[export] Instance Z_JSNumber : JSNumber Z := {
  number_of_Z := fun z => z;
  number_toString := Z_toString;
  Number_isInteger := fun _ => true;
  Number_isNaN := fun _ => false;
  number_gt0 := fun z => (0 <? z)%Z;
  number_truthy := fun z => negb (z =? 0)%Z
}.

(** ** Strings and slashes ([base-client.ts], [buildUrl]) *)

Definition is_slash (c : ascii) : bool := Ascii.eqb c "/"%char.

(** JavaScript truthiness of a string: the empty string is falsy. *)
Definition truthy (s : string) : bool :=
  match s with EmptyString => false | String _ _ => true end.

(** [s.replace(/^\/+/, "")] *)
Fixpoint strip_leading_slashes (s : string) : string :=
  match s with
  | EmptyString => EmptyString
  | String c rest => if is_slash c then strip_leading_slashes rest else s
  end.

(** [s.replace(/\/+$/, "")]: the leftmost match of [\/+$] is the whole
    final run of slashes. *)
Fixpoint strip_trailing_slashes (s : string) : string :=
  match s with
  | EmptyString => EmptyString
  | String c rest =>
      match strip_trailing_slashes rest with
      | EmptyString => if is_slash c then EmptyString else String c EmptyString
      | r => String c r
      end
  end.

(** [s.replace(/^\/+|\/+$/g, "")]: with the [g] flag the first alternative
    removes the leading run, then the second one the trailing run of what is
    left. *)
Definition strip_slashes (s : string) : string :=
  strip_trailing_slashes (strip_leading_slashes s).

(** [BaseClient.buildUrl]; [baseEndpointPath] is [string | null]. *)
Definition buildUrl (serverUrl : string) (baseEndpointPath : option string)
    (endpointPath : string) : string :=
  let base := strip_trailing_slashes serverUrl in
  let base :=
    match baseEndpointPath with
    | Some p => if truthy p then base ++ "/" ++ strip_slashes p else base
    | None => base
    end in
  let ep := strip_leading_slashes endpointPath in
  if truthy ep then base ++ "/" ++ ep else base.

(** Vocabulary of the statements about slashes. *)
Fixpoint slashes (n : nat) : string :=
  match n with O => EmptyString | S k => String "/"%char (slashes k) end.

Definition starts_with_slash (s : string) : bool :=
  match s with EmptyString => false | String c _ => is_slash c end.

Fixpoint ends_with_slash (s : string) : bool :=
  match s with
  | EmptyString => false
  | String c EmptyString => is_slash c
  | String _ rest => ends_with_slash rest
  end.

(** [contains needle s]: [s.includes(needle)]. *)
Fixpoint contains (needle s : string) : bool :=
  if String.prefix needle s then true
  else match s with
       | EmptyString => false
       | String _ rest => contains needle rest
       end.

Section SDK.

Context {number : Type} {NUM : JSNumber number}.

(** ** JavaScript values

    The values that reach the SDK: what [JSON.parse] produces, and the plain
    objects a caller passes as request parameters, which may hold
    [undefined] and, where a schema says [z.unknown()] or none is applied,
    any value: a [bigint] stands for those that [JSON.stringify] refuses.
    An object is the list of its own properties in insertion order, which
    is the order of [Object.entries] for keys that are not array indices
    (the schemas of the SDK declare no such key). *)

Inductive JSValue : Type :=
| JUndefined
| JNull
| JBool (b : bool)
| JNum (n : number)
| JBigInt (z : Z)
| JStr (s : string)
| JArr (items : list JSValue)
| JObj (props : list (string * JSValue)).

(** Own-property lookup. *)
Fixpoint lookup (k : string) (props : list (string * JSValue)) : option JSValue :=
  match props with
  | [] => None
  | (k', v) :: rest => if String.eqb k k' then Some v else lookup k rest
  end.

(** [k in obj], for keys that [Object.prototype] does not define. *)
Definition has_prop (k : string) (props : list (string * JSValue)) : bool :=
  match lookup k props with Some _ => true | None => false end.

(** [obj[k]]: a missing property reads as [undefined]. *)
Definition get_prop (k : string) (props : list (string * JSValue)) : JSValue :=
  match lookup k props with Some v => v | None => JUndefined end.

Definition keys (props : list (string * JSValue)) : list string :=
  map fst props.

Definition mem (k : string) (ks : list string) : bool :=
  existsb (String.eqb k) ks.

(** [String(v)] *)
Fixpoint js_String (v : JSValue) : string :=
  match v with
  | JUndefined => "undefined"
  | JNull => "null"
  | JBool true => "true"
  | JBool false => "false"
  | JNum n => number_toString n
  | JBigInt z => Z_toString z
  | JStr s => s
  | JArr items =>
      (* Array.prototype.join(","): null and undefined print as "" *)
      (fix join (l : list JSValue) : string :=
         match l with
         | [] => ""
         | x :: rest =>
             let sx := match x with
                       | JUndefined | JNull => ""
                       | _ => js_String x
                       end in
             match rest with
             | [] => sx
             | _ :: _ => sx ++ "," ++ join rest
             end
         end) items
  | JObj _ => "[object Object]"
  end.

(** JavaScript truthiness of a value: what [v ? a : b] and [a && v] test. *)
Definition js_truthy (v : JSValue) : bool :=
  match v with
  | JUndefined | JNull => false
  | JBool b => b
  | JNum n => number_truthy n
  | JBigInt z => negb (z =? 0)%Z
  | JStr s => truthy s
  | JArr _ | JObj _ => true
  end.

(** Whether [JSON.stringify(v)] returns: it throws a [TypeError] when it
    meets a [bigint], at any depth. *)
Fixpoint serialisable (v : JSValue) : bool :=
  match v with
  | JBigInt _ => false
  | JArr items => forallb serialisable items
  | JObj props =>
      (fix all (l : list (string * JSValue)) : bool :=
         match l with
         | [] => true
         | (_, x) :: rest => serialisable x && all rest
         end) props
  | _ => true
  end.

(** ** Errors ([errors.ts]) *)

Record NotteAPIError : Type := {
  message : string;
  statusCode : number;
  errorBody : JSValue;
  path : string
}.

(** The message chosen by the constructor of [NotteAPIError], before the
    path is appended. *)
Definition derive_message (statusCode : number) (errorBody : JSValue) : string :=
  match errorBody with
  | JObj props =>
      if has_prop "detail" props then js_String (get_prop "detail" props)
      else if has_prop "message" props then js_String (get_prop "message" props)
      else "API request failed with status " ++ number_toString statusCode
  | JStr s =>
      if truthy s then s
      else "API request failed with status " ++ number_toString statusCode
  | _ => "API request failed with status " ++ number_toString statusCode
  end.

(** [new NotteAPIError(statusCode, errorBody, path)] *)
Definition new_NotteAPIError (statusCode : number) (errorBody : JSValue)
    (path : string) : NotteAPIError :=
  {| message := derive_message statusCode errorBody ++ " (" ++ path ++ ")";
     statusCode := statusCode;
     errorBody := errorBody;
     path := path |}.

(** A step of a path into a value, as zod reports it. *)
Inductive PathSeg : Type := Key (k : string) | Index (i : nat).

Record ZodIssue : Type := {
  issue_code : string;
  issue_path : list PathSeg;
  issue_keys : list string      (* the keys of an [unrecognized_keys] issue *)
}.

(** What the SDK throws or lets through. *)
Inductive JSError : Type :=
| Error (msg : string)                       (* new Error(msg) *)
| APIError (e : NotteAPIError)
| ZodError (issues : list ZodIssue)          (* schema.parse failed *)
| DOMException (name msg : string)
| TypeError (msg : string)
| SyntaxError (msg : string).

(** The outcome of a call: a value, or a thrown error (rejected promise). *)
Inductive result (A : Type) : Type :=
| Ok (a : A)
| Err (e : JSError).
Arguments Ok {A} a.
Arguments Err {A} e.

Definition is_ok {A} (r : result A) : bool :=
  match r with Ok _ => true | Err _ => false end.

(** ** The schema layer: the zod combinators the SDK uses

    [zparse t v] is zod's [t.parse(v)] on plain values: [Valid out] when no
    issue is raised, with [out] the parsed value zod returns, and
    [Invalid issues] when [parse] throws a [ZodError].  The issue list keeps
    codes and paths; a failed [union] is summarised by one [invalid_union]
    issue. *)

Inductive UnknownKeys : Type := Strip | Strict | Passthrough.

Inductive NumberCheck : Type := CheckInt | CheckPositive.

Inductive ZodType : Type :=
| ZString                                   (* z.string() *)
| ZBoolean                                  (* z.boolean() *)
| ZNumber (checks : list NumberCheck)       (* z.number().int().positive() *)
| ZUnknown                                  (* z.unknown() *)
| ZLiteral (value : string)                 (* z.literal("...") *)
| ZEnum (values : list string)              (* z.enum([...]) *)
| ZNullable (inner : ZodType)               (* t.nullable() *)
| ZOptional (inner : ZodType)               (* t.optional() *)
| ZArray (element : ZodType)                (* z.array(t) *)
| ZRecord (valueType : ZodType)             (* z.record(t) *)
| ZUnion (options : list ZodType)           (* z.union([...]) *)
| ZDiscriminatedUnion (discriminator : string)
    (options : list (string * ZodType))     (* tag literal, object schema *)
| ZObject (shape : list (string * ZodType)) (unknownKeys : UnknownKeys).

Inductive ParseReturn : Type :=
| Valid (v : JSValue)
| Invalid (issues : list ZodIssue).

Definition issue (code : string) : ZodIssue :=
  {| issue_code := code; issue_path := []; issue_keys := [] |}.

Definition at_path (seg : PathSeg) (i : ZodIssue) : ZodIssue :=
  {| issue_code := issue_code i;
     issue_path := seg :: issue_path i;
     issue_keys := issue_keys i |}.

Definition issues_of (seg : PathSeg) (r : ParseReturn) : list ZodIssue :=
  match r with
  | Valid _ => []
  | Invalid issues => map (at_path seg) issues
  end.

Definition check_number (c : NumberCheck) (n : number) : list ZodIssue :=
  match c with
  | CheckInt => if Number_isInteger n then [] else [issue "invalid_type"]
  | CheckPositive => if number_gt0 n then [] else [issue "too_small"]
  end.

Definition is_valid (r : ParseReturn) : bool :=
  match r with Valid _ => true | Invalid _ => false end.

Definition value_of (r : ParseReturn) : JSValue :=
  match r with Valid v => v | Invalid _ => JUndefined end.

(** The issues of the elements of an array, each under its index. *)
Fixpoint indexed_issues (i : nat) (rs : list ParseReturn) : list ZodIssue :=
  match rs with
  | [] => []
  | r :: rest => (issues_of (Index i) r ++ indexed_issues (S i) rest)%list
  end.

(** The issues of the fields of an object, each under its key. *)
Definition keyed_issues (fields : list (string * ParseReturn)) : list ZodIssue :=
  flat_map (fun kr => issues_of (Key (fst kr)) (snd kr)) fields.

Definition all_valid (fields : list (string * ParseReturn)) : bool :=
  forallb (fun kr => is_valid (snd kr)) fields.

(** The keys of the input that the shape does not declare, in input order. *)
Definition extra_keys (shapeKeys : list string)
    (props : list (string * JSValue)) : list string :=
  filter (fun k => negb (mem k shapeKeys)) (keys props).

(** [mergeObjectSync]: a pair is written to the output unless its key is
    [__proto__], or its value is [undefined] and it is not [alwaysSet]. *)
Definition merge_pair (k : string) (v : JSValue) (alwaysSet : bool)
    : list (string * JSValue) :=
  if String.eqb k "__proto__" then []
  else match v with
       | JUndefined => if alwaysSet then [(k, v)] else []
       | _ => [(k, v)]
       end.

(** The unknown-key policy: [strict] raises an issue when there are extra
    keys, [passthrough] copies them to the output, [strip] drops them. *)
Definition unrecognized (unknownKeys : UnknownKeys) (extras : list string)
    : list ZodIssue :=
  match unknownKeys, extras with
  | Strict, _ :: _ =>
      [{| issue_code := "unrecognized_keys"; issue_path := [];
          issue_keys := extras |}]
  | _, _ => []
  end.

Definition passed_through (unknownKeys : UnknownKeys) (extras : list string)
    (props : list (string * JSValue)) : list (string * JSValue) :=
  match unknownKeys with
  | Passthrough => flat_map (fun k => merge_pair k (get_prop k props) false) extras
  | _ => []
  end.

(** The result of [ZodObject._parse] once every declared field has been
    parsed: [fields] pairs each key of the shape with the result for
    [data[key]]. *)
Definition object_result (unknownKeys : UnknownKeys)
    (props : list (string * JSValue)) (fields : list (string * ParseReturn))
    : ParseReturn :=
  let extras := extra_keys (map fst fields) props in
  let key_issues := unrecognized unknownKeys extras in
  if all_valid fields && match key_issues with [] => true | _ => false end
  then Valid (JObj (flat_map
                      (fun kr => merge_pair (fst kr) (value_of (snd kr))
                                   (has_prop (fst kr) props)) fields
                    ++ passed_through unknownKeys extras props)%list)
  else Invalid (keyed_issues fields ++ key_issues)%list.

Fixpoint zparse (t : ZodType) (v : JSValue) {struct t} : ParseReturn :=
  match t with
  | ZString =>
      match v with JStr _ => Valid v | _ => Invalid [issue "invalid_type"] end
  | ZBoolean =>
      match v with JBool _ => Valid v | _ => Invalid [issue "invalid_type"] end
  | ZNumber checks =>
      match v with
      | JNum n =>
          if Number_isNaN n then Invalid [issue "invalid_type"]
          else match flat_map (fun c => check_number c n) checks with
               | [] => Valid v
               | issues => Invalid issues
               end
      | _ => Invalid [issue "invalid_type"]
      end
  | ZUnknown => Valid v
  | ZLiteral value =>
      match v with
      | JStr s => if String.eqb s value then Valid v
                  else Invalid [issue "invalid_literal"]
      | _ => Invalid [issue "invalid_literal"]
      end
  | ZEnum values =>
      match v with
      | JStr s => if mem s values then Valid v
                  else Invalid [issue "invalid_enum_value"]
      | _ => Invalid [issue "invalid_type"]
      end
  | ZNullable inner =>
      match v with JNull => Valid JNull | _ => zparse inner v end
  | ZOptional inner =>
      match v with JUndefined => Valid JUndefined | _ => zparse inner v end
  | ZArray element =>
      match v with
      | JArr items =>
          let parsed := map (zparse element) items in
          if forallb is_valid parsed
          then Valid (JArr (map value_of parsed))
          else Invalid (indexed_issues O parsed)
      | _ => Invalid [issue "invalid_type"]
      end
  | ZRecord valueType =>
      match v with
      | JObj props =>
          let parsed := map (fun kv => (fst kv, zparse valueType (snd kv))) props in
          if all_valid parsed
          then Valid (JObj (flat_map
                     (fun kr => merge_pair (fst kr) (value_of (snd kr)) true)
                     parsed))
          else Invalid (keyed_issues parsed)
      | _ => Invalid [issue "invalid_type"]
      end
  | ZUnion options =>
      (fix first_valid (opts : list ZodType) : ParseReturn :=
         match opts with
         | [] => Invalid [issue "invalid_union"]
         | o :: rest =>
             match zparse o v with
             | Valid out => Valid out
             | Invalid _ => first_valid rest
             end
         end) options
  | ZDiscriminatedUnion discriminator options =>
      match v with
      | JObj props =>
          (fix select (opts : list (string * ZodType)) : ParseReturn :=
             match opts with
             | [] => Invalid [at_path (Key discriminator)
                               (issue "invalid_union_discriminator")]
             | (tag, o) :: rest =>
                 match get_prop discriminator props with
                 | JStr s => if String.eqb s tag then zparse o v else select rest
                 | _ => select rest
                 end
             end) options
      | _ => Invalid [issue "invalid_type"]
      end
  | ZObject shape unknownKeys =>
      match v with
      | JObj props =>
          object_result unknownKeys props
            ((fix parse_shape (sh : list (string * ZodType))
                : list (string * ParseReturn) :=
                match sh with
                | [] => []
                | (k, tk) :: rest =>
                    (k, zparse tk (get_prop k props)) :: parse_shape rest
                end) shape)
      | _ => Invalid [issue "invalid_type"]
      end
  end.

(** The declared fields of a shape, each parsed on [data[key]]. *)
Definition parse_fields (shape : list (string * ZodType))
    (props : list (string * JSValue)) : list (string * ParseReturn) :=
  map (fun kt => (fst kt, zparse (snd kt) (get_prop (fst kt) props))) shape.

(** [schema.parse(v)]: returns the parsed value or throws the [ZodError]. *)
Definition parse (schema : ZodType) (v : JSValue) : result JSValue :=
  match zparse schema v with
  | Valid out => Ok out
  | Invalid issues => Err (ZodError issues)
  end.

(** ** The schemas ([types/cookie.ts], [types/session.ts], [types/page.ts]) *)

(** [t.nullable().optional()] *)
Definition nullable_optional (t : ZodType) : ZodType := ZOptional (ZNullable t).

Definition CookieSchema : ZodType :=
  ZObject
    [ ("name", ZString);
      ("value", ZString);
      ("domain", ZString);
      ("path", ZString);
      ("httpOnly", ZBoolean);
      ("expirationDate", nullable_optional (ZNumber []));
      ("hostOnly", nullable_optional ZBoolean);
      ("sameSite", nullable_optional (ZEnum ["Lax"; "None"; "Strict"]));
      ("secure", nullable_optional ZBoolean);
      ("session", nullable_optional ZBoolean);
      ("storeId", nullable_optional ZString);
      ("expires", nullable_optional (ZNumber []));
      ("partitionKey", nullable_optional ZString) ]
    Passthrough.

Definition SetCookiesRequestSchema : ZodType :=
  ZObject [ ("cookies", ZArray CookieSchema) ] Strict.

Definition SetCookiesResponseSchema : ZodType :=
  ZObject [ ("success", ZBoolean); ("message", ZString) ] Passthrough.

Definition GetCookiesResponseSchema : ZodType :=
  ZObject [ ("cookies", ZArray CookieSchema) ] Passthrough.

Definition NotteProxySchema : ZodType :=
  ZObject
    [ ("type", ZLiteral "notte");
      ("id", nullable_optional ZString);
      ("country", nullable_optional ZString) ]
    Strip.

Definition ExternalProxySchema : ZodType :=
  ZObject
    [ ("type", ZLiteral "external");
      ("server", ZString);
      ("username", nullable_optional ZString);
      ("password", nullable_optional ZString);
      ("bypass", nullable_optional ZString) ]
    Strip.

Definition ProxySettingsSchema : ZodType :=
  ZDiscriminatedUnion "type"
    [ ("notte", NotteProxySchema); ("external", ExternalProxySchema) ].

Definition SessionProfileSchema : ZodType :=
  ZObject [ ("id", ZString); ("persist", ZOptional ZBoolean) ] Strip.

Definition SessionStartRequestSchema : ZodType :=
  ZObject
    [ ("headless", ZOptional ZBoolean);
      ("solve_captchas", ZOptional ZBoolean);
      ("max_duration_minutes", ZOptional (ZNumber [CheckInt; CheckPositive]));
      ("idle_timeout_minutes", ZOptional (ZNumber [CheckInt; CheckPositive]));
      ("proxies", ZOptional (ZUnion [ZArray ProxySettingsSchema; ZBoolean; ZString]));
      ("browser_type", ZOptional ZString);
      ("user_agent", nullable_optional ZString);
      ("chrome_args", nullable_optional (ZArray ZString));
      ("viewport_width", nullable_optional (ZNumber [CheckInt]));
      ("viewport_height", nullable_optional (ZNumber [CheckInt]));
      ("cdp_url", nullable_optional ZString);
      ("use_file_storage", ZOptional ZBoolean);
      ("screenshot_type", ZOptional ZString);
      ("profile", nullable_optional SessionProfileSchema);
      ("web_bot_auth", ZOptional ZBoolean) ]
    Strict.

Definition SessionResponseSchema : ZodType :=
  ZObject
    [ ("session_id", ZString);
      ("idle_timeout_minutes", ZNumber [CheckInt]);
      ("max_duration_minutes", ZNumber [CheckInt]);
      ("created_at", ZString);
      ("closed_at", nullable_optional ZString);
      ("last_accessed_at", ZString);
      ("duration", ZOptional ZUnknown);
      ("status", ZEnum ["active"; "closed"; "error"; "timed_out"]);
      ("steps", ZOptional (ZArray (ZRecord ZUnknown)));
      ("error", nullable_optional ZString);
      ("credit_usage", nullable_optional (ZNumber []));
      ("proxies", ZOptional ZBoolean);
      ("browser_type", ZOptional ZString);
      ("use_file_storage", ZOptional ZBoolean);
      ("network_request_bytes", ZOptional (ZNumber []));
      ("network_response_bytes", ZOptional (ZNumber []));
      ("user_agent", nullable_optional ZString);
      ("viewport_width", nullable_optional (ZNumber []));
      ("viewport_height", nullable_optional (ZNumber []));
      ("headless", ZOptional ZBoolean);
      ("solve_captchas", nullable_optional ZBoolean);
      ("cdp_url", nullable_optional ZString);
      ("viewer_url", nullable_optional ZString);
      ("web_bot_auth", ZOptional ZBoolean) ]
    Passthrough.

Definition SessionListRequestSchema : ZodType :=
  ZObject
    [ ("only_active", ZOptional ZBoolean);
      ("page_size", ZOptional (ZNumber [CheckInt]));
      ("page", ZOptional (ZNumber [CheckInt])) ]
    Strict.

Definition ScrapeRequestSchema : ZodType :=
  ZObject
    [ ("selector", nullable_optional ZString);
      ("scrape_links", ZOptional ZBoolean);
      ("scrape_images", ZOptional ZBoolean);
      ("ignored_tags", nullable_optional (ZArray ZString));
      ("only_main_content", ZOptional ZBoolean);
      ("only_images", ZOptional ZBoolean);
      ("response_format", nullable_optional (ZRecord ZUnknown));
      ("instructions", nullable_optional ZString);
      ("use_link_placeholders", ZOptional ZBoolean) ]
    Strict.

Definition ScrapeResponseSchema : ZodType :=
  ZObject
    [ ("session", SessionResponseSchema);
      ("markdown", nullable_optional ZString);
      ("structured_data", nullable_optional ZUnknown);
      ("images", nullable_optional (ZArray ZUnknown));
      ("metadata", ZOptional (ZRecord ZUnknown)) ]
    Passthrough.

Definition ObserveRequestSchema : ZodType :=
  ZObject
    [ ("url", nullable_optional ZString);
      ("instructions", nullable_optional ZString);
      ("perception_type", nullable_optional ZString);
      ("min_nb_actions", nullable_optional (ZNumber [CheckInt]));
      ("max_nb_actions", ZOptional (ZNumber [CheckInt])) ]
    Strict.

Definition ObserveResponseSchema : ZodType :=
  ZObject
    [ ("session", SessionResponseSchema);
      ("metadata", ZOptional (ZRecord ZUnknown));
      ("space", nullable_optional ZUnknown);
      ("screenshot", nullable_optional ZUnknown) ]
    Passthrough.

Definition ExecutionRequestSchema : ZodType :=
  ZObject
    [ ("type", ZString);
      ("id", nullable_optional ZString);
      ("value", nullable_optional (ZUnion [ZString; ZNumber []]));
      ("enter", nullable_optional ZBoolean);
      ("selector", nullable_optional ZUnknown);
      ("url", ZOptional ZString);
      ("key", ZOptional ZString);
      ("milliseconds", ZOptional (ZNumber []));
      ("path", ZOptional ZString);
      ("script", ZOptional ZString);
      ("tab_idx", ZOptional (ZNumber [])) ]
    Strict.

Definition ExecutionResponseSchema : ZodType :=
  ZObject
    [ ("session", SessionResponseSchema);
      ("success", ZOptional ZBoolean);
      ("message", nullable_optional ZString);
      ("exception", nullable_optional ZString);
      ("url", nullable_optional ZString) ]
    Passthrough.

(** The declared field set of an object schema. *)
Definition declared (schema : ZodType) : list string :=
  match schema with
  | ZObject shape _ => map fst shape
  | _ => []
  end.

(** The request schemas are the strict ones, the response schemas the
    passthrough ones. *)
Definition request_schemas : list ZodType :=
  [ SessionStartRequestSchema; SessionListRequestSchema; ScrapeRequestSchema;
    ObserveRequestSchema; ExecutionRequestSchema; SetCookiesRequestSchema ].

Definition response_schemas : list ZodType :=
  [ SessionResponseSchema; ScrapeResponseSchema; ObserveResponseSchema;
    ExecutionResponseSchema; SetCookiesResponseSchema; GetCookiesResponseSchema ].

(** ** Endpoint descriptors ([endpoint.ts]) *)

Inductive Method : Type := GET | POST | DELETE | PATCH.

(** [NotteEndpoint<T> & { body?, params? }]; an absent [body] or [params] is
    [None]. *)
Record NotteEndpoint : Type := {
  ep_path : string;
  ep_method : Method;
  responseSchema : ZodType;
  ep_body : option JSValue;
  ep_params : option JSValue
}.

Definition withBody (endpoint : NotteEndpoint) (body : JSValue)
    : NotteEndpoint :=
  {| ep_path := ep_path endpoint; ep_method := ep_method endpoint;
     responseSchema := responseSchema endpoint;
     ep_body := Some body; ep_params := ep_params endpoint |}.

Definition withParams (endpoint : NotteEndpoint) (params : JSValue)
    : NotteEndpoint :=
  {| ep_path := ep_path endpoint; ep_method := ep_method endpoint;
     responseSchema := responseSchema endpoint;
     ep_body := ep_body endpoint; ep_params := Some params |}.

(** ** The base client ([base-client.ts]) *)

Record BaseClient : Type := {
  apiKey : string;
  serverUrl : string;
  timeoutMs : number;
  baseEndpointPath : option string
}.

(** [version.ts] is not part of the sources: the version string is a
    parameter. *)
Variable SDK_VERSION : string.

Definition getHeaders (client : BaseClient) : list (string * string) :=
  [ ("Authorization", "Bearer " ++ apiKey client);
    ("Content-Type", "application/json");
    ("x-notte-sdk-version", SDK_VERSION);
    ("x-notte-request-origin", "sdk") ].

(** What [fetch] is called with.  [fc_url] is the string that [new URL]
    parsed and [fc_query] the parameters then set with [searchParams.set]:
    [fetch] receives [url.toString()], the parser's serialisation of the
    two, which the transport stands for.  [fc_body] is the value whose
    [JSON.stringify] is the body. *)
Record FetchCall : Type := {
  fc_url : string;
  fc_query : list (string * string);
  fc_method : Method;
  fc_headers : list (string * string);
  fc_body : option JSValue
}.

(** The body of a [Response], as [response.json()] finds it. *)
Inductive Body : Type :=
| NoBody                       (* response.body === null *)
| JSONBody (v : JSValue)       (* bytes that parse as JSON, to [v] *)
| OtherBody (e : JSError).     (* bytes on which json() rejects with [e]:
                                  not JSON (a SyntaxError), a failing stream *)

(** A [Response], as far as the SDK reads it. *)
Record Response : Type := {
  ok : bool;
  status : number;
  body : Body
}.

(** [await response.json()], the first read of the body.  Without a body
    there is nothing to parse. *)
Definition json (response : Response) : result JSValue :=
  match body response with
  | NoBody => Err (SyntaxError "Unexpected end of JSON input")
  | JSONBody v => Ok v
  | OtherBody e => Err e
  end.

(** [await response.text()] after [response.json()] has rejected.  A body
    is a stream that is read once: [json()] has consumed it, and a second
    read rejects with a [TypeError] (the message is Node's).  Only a
    response without a body can still be read as text, the empty string. *)
Definition text_after_json (response : Response) : result string :=
  match body response with
  | NoBody => Ok ""
  | _ => Err (TypeError "Body is unusable: Body has already been read")
  end.

(** How the transport answers a call that races against the timeout timer. *)
Inductive FetchOutcome : Type :=
| Responds (r : Response)
| TimesOut                   (* the timer fires first and aborts the call *)
| Fails (err : JSError).     (* fetch rejects for a reason of its own *)

(** The world outside the client: the pending timers and the calls made so
    far.  The transport is a function of the calls already made. *)
Record World : Type := {
  timers : list nat;         (* pending timer handles *)
  next_timer : nat;
  fetched : list FetchCall
}.

Variable network : list FetchCall -> FetchCall -> FetchOutcome.

(** Whether [new URL(s)] accepts the string (it throws a [TypeError]
    otherwise). *)
Variable URL_valid : string -> bool.

Definition setTimeout (w : World) : nat * World :=
  (next_timer w,
   {| timers := next_timer w :: timers w;
      next_timer := S (next_timer w);
      fetched := fetched w |}).

Definition clearTimeout (timer : nat) (w : World) : World :=
  {| timers := filter (fun t => negb (Nat.eqb t timer)) (timers w);
     next_timer := next_timer w;
     fetched := fetched w |}.

(** The rejection of an aborted [fetch]: [controller.abort()] without a
    reason. *)
Definition AbortError : JSError :=
  DOMException "AbortError" "This operation was aborted".

(** [err instanceof DOMException && err.name === "AbortError"] *)
Definition is_abort_error (err : JSError) : bool :=
  match err with
  | DOMException name _ => String.eqb name "AbortError"
  | _ => false
  end.

(** [await fetch(url, init)] with [init.signal] the signal that [timer]
    aborts.  A timer that has fired is no longer pending. *)
Definition fetch (call : FetchCall) (timer : nat) (w : World)
    : result Response * World :=
  let w' := {| timers := timers w; next_timer := next_timer w;
               fetched := (fetched w ++ [call])%list |} in
  match network (fetched w) call with
  | Responds r => (Ok r, w')
  | TimesOut => (Err AbortError, clearTimeout timer w')
  | Fails err => (Err err, w')
  end.

(** [url.searchParams.set(k, v)] *)
Fixpoint searchParams_set (k v : string) (q : list (string * string))
    : list (string * string) :=
  match q with
  | [] => [(k, v)]
  | (k', v') :: rest =>
      if String.eqb k k' then (k, v) :: rest
      else (k', v') :: searchParams_set k v rest
  end.

(** [Object.entries(v)] of a plain object. *)
Definition entries (v : JSValue) : list (string * JSValue) :=
  match v with JObj props => props | _ => [] end.

(** The loop over [Object.entries(endpoint.params)]; [params] is a plain
    object (a [Record<string, unknown>], which the SDK fills with the
    output of an object schema). *)
Definition query_of (params : JSValue) : list (string * string) :=
  fold_left
    (fun q kv =>
       match snd kv with
       | JUndefined | JNull => q
       | v => searchParams_set (fst kv) (js_String v) q
       end)
    (entries params) [].

Definition sends_body (m : Method) : bool :=
  match m with POST | PATCH => true | _ => false end.

(** A property that is absent, or holds a falsy value, fails the tests
    [if (endpoint.params)] and [&& endpoint.body]. *)
Definition if_truthy (v : option JSValue) : option JSValue :=
  match v with
  | Some x => if js_truthy x then Some x else None
  | None => None
  end.

(** The call that [rawRequest] hands to [fetch]: the URL with its query
    parameters, and [init]. *)
Definition build_call (client : BaseClient) (endpoint : NotteEndpoint)
    : FetchCall :=
  {| fc_url := buildUrl (serverUrl client) (baseEndpointPath client)
                 (ep_path endpoint);
     fc_query := match if_truthy (ep_params endpoint) with
                 | Some params => query_of params
                 | None => []
                 end;
     fc_method := ep_method endpoint;
     fc_headers := getHeaders client;
     fc_body := if sends_body (ep_method endpoint)
                then if_truthy (ep_body endpoint)
                else None |}.

(** [init.body = JSON.stringify(endpoint.body)]: the error it throws, if
    any. *)
Definition stringify_error (b : option JSValue) : option JSError :=
  match b with
  | Some v => if serialisable v then None
              else Some (TypeError "Do not know how to serialize a BigInt")
  | None => None
  end.

(** Reading the body of a response that is not [ok]:
    [try { body = await response.json() } catch { body = await response.text() }] *)
Definition error_body (response : Response) : result JSValue :=
  match json response with
  | Ok b => Ok b
  | Err _ => match text_after_json response with
             | Ok t => Ok (JStr t)
             | Err e => Err e
             end
  end.

(** [BaseClient.rawRequest].  The timer is set before the body is
    serialised, and the [try] block starts after it: an error of
    [JSON.stringify] leaves through neither [catch] nor [finally]. *)
Definition rawRequest (client : BaseClient) (endpoint : NotteEndpoint)
    (w : World) : result JSValue * World :=
  let call := build_call client endpoint in
  if negb (URL_valid (fc_url call)) then (Err (TypeError "Invalid URL"), w)
  else
    let (timer, w1) := setTimeout w in
    match stringify_error (fc_body call) with
    | Some err => (Err err, w1)
    | None =>
        let (outcome, w2) := fetch call timer w1 in
        match outcome with
        | Err err =>
            (* catch, then finally *)
            let w3 := clearTimeout timer (clearTimeout timer w2) in
            if is_abort_error err
            then (Err (APIError (new_NotteAPIError (number_of_Z 0)
                                   (JStr "Request timed out")
                                   (ep_path endpoint))),
                  w3)
            else (Err err, w3)
        | Ok response =>
            (* finally *)
            let w3 := clearTimeout timer w2 in
            if negb (ok response) then
              match error_body response with
              | Ok body => (Err (APIError (new_NotteAPIError (status response)
                                             body (ep_path endpoint))), w3)
              | Err e => (Err e, w3)
              end
            else (json response, w3)
        end
    end.

(** Whether [rawRequest] gets as far as [fetch]: [new URL] accepts the URL
    and [JSON.stringify] the body. *)
Definition reaches_fetch (client : BaseClient) (endpoint : NotteEndpoint)
    : bool :=
  URL_valid (fc_url (build_call client endpoint))
  && match stringify_error (fc_body (build_call client endpoint)) with
     | None => true
     | Some _ => false
     end.

(** [BaseClient.request] *)
Definition request (client : BaseClient) (endpoint : NotteEndpoint)
    (w : World) : result JSValue * World :=
  match rawRequest client endpoint w with
  | (Ok raw, w') => (parse (responseSchema endpoint) raw, w')
  | (Err e, w') => (Err e, w')
  end.

(** [items.map((item) => schema.parse(item))]: the first item that fails
    to parse throws. *)
Fixpoint parse_items (schema : ZodType) (items : list JSValue)
    : result (list JSValue) :=
  match items with
  | [] => Ok []
  | item :: rest =>
      match parse schema item with
      | Err e => Err e
      | Ok v => match parse_items schema rest with
                | Err e => Err e
                | Ok vs => Ok (v :: vs)
                end
      end
  end.

(** The list that [requestList] extracts from the raw JSON, if any. *)
Definition list_shape (raw : JSValue) : option (list JSValue) :=
  match raw with
  | JArr items => Some items
  | JObj props =>
      if has_prop "items" props
      then match get_prop "items" props with
           | JArr items => Some items
           | _ => None
           end
      else None
  | _ => None
  end.

(** [BaseClient.requestList] *)
Definition requestList (client : BaseClient) (endpoint : NotteEndpoint)
    (w : World) : result (list JSValue) * World :=
  match rawRequest client endpoint w with
  | (Err e, w') => (Err e, w')
  | (Ok raw, w') =>
      match list_shape raw with
      | Some items => (parse_items (responseSchema endpoint) items, w')
      | None =>
          (Err (APIError (new_NotteAPIError (number_of_Z 0)
                            (JStr "Expected array or { items: [...] } response")
                            (ep_path endpoint))), w')
      end
  end.

(** ** The domain client ([sessions/sessions-client.ts])

    [SessionsClient] is a [BaseClient] whose [baseEndpointPath] is
    ["sessions"].  An optional parameter that is left out is [None]. *)

Definition endpoint (path : string) (method : Method) (schema : ZodType)
    (body params : option JSValue) : NotteEndpoint :=
  {| ep_path := path; ep_method := method; responseSchema := schema;
     ep_body := body; ep_params := params |}.

(** [params ? Schema.parse(params) : {}]: an argument that is left out, or
    falsy, is not parsed. *)
Definition parse_or_empty (schema : ZodType) (params : option JSValue)
    : result JSValue :=
  match if_truthy params with
  | Some p => parse schema p
  | None => Ok (JObj [])
  end.

Definition SessionsClient_start (client : BaseClient) (params : option JSValue)
    (w : World) : result JSValue * World :=
  match parse_or_empty SessionStartRequestSchema params with
  | Err e => (Err e, w)
  | Ok body =>
      request client (endpoint "start" POST SessionResponseSchema (Some body) None) w
  end.

Definition SessionsClient_stop (client : BaseClient) (sessionId : string)
    (w : World) : result JSValue * World :=
  request client
    (endpoint (sessionId ++ "/stop") DELETE SessionResponseSchema None None) w.

Definition SessionsClient_status (client : BaseClient) (sessionId : string)
    (w : World) : result JSValue * World :=
  request client (endpoint sessionId GET SessionResponseSchema None None) w.

Definition SessionsClient_list (client : BaseClient) (params : option JSValue)
    (w : World) : result (list JSValue) * World :=
  match if_truthy params with
  | Some p =>
      match parse SessionListRequestSchema p with
      | Err e => (Err e, w)
      | Ok queryParams =>
          requestList client
            (endpoint "" GET SessionResponseSchema None (Some queryParams)) w
      end
  | None =>
      requestList client (endpoint "" GET SessionResponseSchema None None) w
  end.

Definition SessionsClient_scrape (client : BaseClient) (sessionId : string)
    (params : option JSValue) (w : World) : result JSValue * World :=
  match parse_or_empty ScrapeRequestSchema params with
  | Err e => (Err e, w)
  | Ok body =>
      request client
        (endpoint (sessionId ++ "/page/scrape") POST ScrapeResponseSchema
           (Some body) None) w
  end.

Definition SessionsClient_observe (client : BaseClient) (sessionId : string)
    (params : option JSValue) (w : World) : result JSValue * World :=
  match parse_or_empty ObserveRequestSchema params with
  | Err e => (Err e, w)
  | Ok body =>
      request client
        (endpoint (sessionId ++ "/page/observe") POST ObserveResponseSchema
           (Some body) None) w
  end.

Definition SessionsClient_execute (client : BaseClient) (sessionId : string)
    (action : JSValue) (w : World) : result JSValue * World :=
  match parse ExecutionRequestSchema action with
  | Err e => (Err e, w)
  | Ok body =>
      request client
        (endpoint (sessionId ++ "/page/execute") POST ExecutionResponseSchema
           (Some body) None) w
  end.

(** [setCookies] wraps the array as [{ cookies }] and sends it: no schema is
    applied to the argument. *)
Definition SessionsClient_setCookies (client : BaseClient) (sessionId : string)
    (cookies : list JSValue) (w : World) : result JSValue * World :=
  request client
    (endpoint (sessionId ++ "/cookies") POST SetCookiesResponseSchema
       (Some (JObj [("cookies", JArr cookies)])) None) w.

Definition SessionsClient_getCookies (client : BaseClient) (sessionId : string)
    (w : World) : result JSValue * World :=
  request client
    (endpoint (sessionId ++ "/cookies") GET GetCookiesResponseSchema None None) w.

(** ** The lifecycle wrapper ([sessions/remote-session.ts])

    [RemoteSession] sees the domain client through its methods only.  The
    wrapper is modelled over any implementation of them; [Server] is the
    state the client's answers may depend on and change.  Every call the
    wrapper forwards to the client is recorded in [calls]. *)

(** The TypeScript type [SessionResponse]: an object with a string
    [session_id]; [snapshot] is the whole parsed object. *)
Record SessionResponse : Type := {
  session_id : string;
  snapshot : JSValue
}.

Class SessionsClient (Server : Type) : Type := {
  client_start : JSValue -> Server -> result SessionResponse * Server;
  client_stop : string -> Server -> result SessionResponse * Server;
  client_status : string -> Server -> result SessionResponse * Server;
  client_scrape : string -> option JSValue -> Server -> result JSValue * Server;
  client_observe : string -> option JSValue -> Server -> result JSValue * Server;
  client_execute : string -> JSValue -> Server -> result JSValue * Server;
  client_setCookies : string -> list JSValue -> Server -> result JSValue * Server;
  client_getCookies : string -> Server -> result JSValue * Server
}.

Context {Server : Type} {the_client : SessionsClient Server}.

Inductive ClientCall : Type :=
| CallStart (options : JSValue)
| CallStop (sessionId : string)
| CallStatus (sessionId : string)
| CallScrape (sessionId : string) (params : option JSValue)
| CallObserve (sessionId : string) (params : option JSValue)
| CallExecute (sessionId : string) (action : JSValue)
| CallSetCookies (sessionId : string) (cookies : list JSValue)
| CallGetCookies (sessionId : string).

Record Env : Type := {
  calls : list ClientCall;     (* the calls made to the domain client *)
  server : Server
}.

(** Make a call to the client and record it. *)
Definition logged {A : Type} (c : ClientCall)
    (m : Server -> result A * Server) (env : Env) : result A * Env :=
  let (r, sv) := m (server env) in
  (r, {| calls := (calls env ++ [c])%list; server := sv |}).

Definition is_stop_call (c : ClientCall) : bool :=
  match c with CallStop _ => true | _ => false end.

(** The number of stop requests among the recorded calls. *)
Definition stop_calls (env : Env) : nat :=
  length (filter is_stop_call (calls env)).

Record RemoteSession : Type := {
  options : JSValue;
  _sessionId : option string;             (* string | null *)
  _response : option SessionResponse;     (* SessionResponse | null *)
  _stopped : bool
}.

(** [new RemoteSession(client, options)] *)
Definition new_RemoteSession (options : JSValue) : RemoteSession :=
  {| options := options; _sessionId := None; _response := None;
     _stopped := false |}.

(** Truthiness of [this._sessionId]: [null] and [""] are falsy. *)
Definition has_id (s : RemoteSession) : bool :=
  match _sessionId s with
  | Some id => truthy id
  | None => false
  end.

(** [get sessionId()] *)
Definition sessionId (s : RemoteSession) : result string :=
  match _sessionId s with
  | Some id =>
      if truthy id then Ok id
      else Err (Error "Session has not been started. Call start() first.")
  | None => Err (Error "Session has not been started. Call start() first.")
  end.

(** [get response()] *)
Definition response (s : RemoteSession) : option SessionResponse := _response s.

(** [get isStarted()]: [this._sessionId !== null] *)
Definition isStarted (s : RemoteSession) : bool :=
  match _sessionId s with Some _ => true | None => false end.

(** [get isStopped()] *)
Definition isStopped (s : RemoteSession) : bool := _stopped s.

(** [start()] *)
Definition start (s : RemoteSession) (env : Env)
    : result SessionResponse * RemoteSession * Env :=
  if has_id s then (Err (Error "Session already started"), s, env)
  else
    match logged (CallStart (options s)) (client_start (options s)) env with
    | (Err e, env') => (Err e, s, env')
    | (Ok r, env') =>
        (Ok r,
         {| options := options s;
            _sessionId := Some (session_id r);
            _response := Some r;
            _stopped := _stopped s |},
         env')
    end.

(** [stop()].  The cached branch returns [this._response] as it is. *)
Definition stop (s : RemoteSession) (env : Env)
    : result (option SessionResponse) * RemoteSession * Env :=
  if _stopped s then (Ok (_response s), s, env)
  else
    match _sessionId s with
    | Some id =>
        if truthy id then
          match logged (CallStop id) (client_stop id) env with
          | (Err e, env') => (Err e, s, env')
          | (Ok r, env') =>
              (Ok (Some r),
               {| options := options s;
                  _sessionId := _sessionId s;
                  _response := Some r;
                  _stopped := true |},
               env')
          end
        else (Err (Error "Session has not been started"), s, env)
    | None => (Err (Error "Session has not been started"), s, env)
    end.

(** The page and cookie operations: read [this.sessionId], then forward. *)
Definition forward {A : Type} (s : RemoteSession)
    (call : string -> ClientCall) (m : string -> Server -> result A * Server)
    (env : Env) : result A * RemoteSession * Env :=
  match sessionId s with
  | Err e => (Err e, s, env)
  | Ok id => let (r, env') := logged (call id) (m id) env in (r, s, env')
  end.

Definition status_ (s : RemoteSession) := forward s CallStatus client_status.

Definition scrape (params : option JSValue) (s : RemoteSession) :=
  forward s (fun id => CallScrape id params) (fun id => client_scrape id params).

Definition observe (params : option JSValue) (s : RemoteSession) :=
  forward s (fun id => CallObserve id params) (fun id => client_observe id params).

Definition execute (action : JSValue) (s : RemoteSession) :=
  forward s (fun id => CallExecute id action) (fun id => client_execute id action).

Definition setCookies (cookies : list JSValue) (s : RemoteSession) :=
  forward s (fun id => CallSetCookies id cookies)
    (fun id => client_setCookies id cookies).

Definition getCookies (s : RemoteSession) :=
  forward s CallGetCookies client_getCookies.

(** [RemoteSession.fromId(client, sessionId)] *)
Definition fromId (id : string) : RemoteSession :=
  {| options := JObj []; _sessionId := Some id; _response := None;
     _stopped := false |}.

(** [[Symbol.asyncDispose]()] *)
Definition asyncDispose (s : RemoteSession) (env : Env)
    : result unit * RemoteSession * Env :=
  if has_id s && negb (_stopped s) then
    match stop s env with
    | (Err e, s', env') => (Err e, s', env')
    | (Ok _, s', env') => (Ok tt, s', env')
    end
  else (Ok tt, s, env).

(** *** Code that uses a wrapper

    The work function given to [RemoteSession.use], and any other code that
    holds a wrapper, can only go through the wrapper's public members (its
    fields are private) and through the domain client.  Such code is a
    tree of operations: each node performs one operation and continues
    with its outcome, a returned value or a caught error. *)

Inductive SessionOp : Type :=
| GetSessionId                            (* session.sessionId *)
| GetResponse                             (* session.response *)
| GetIsStarted                            (* session.isStarted *)
| GetIsStopped                            (* session.isStopped *)
| DoStart                                 (* await session.start() *)
| DoStop                                  (* await session.stop() *)
| DoStatus
| DoScrape (params : option JSValue)
| DoObserve (params : option JSValue)
| DoExecute (action : JSValue)
| DoSetCookies (cookies : list JSValue)
| DoGetCookies
| DoDispose                               (* await session[Symbol.asyncDispose]() *)
| Direct (c : ClientCall).                (* a call on the client itself *)

Inductive OpValue : Type :=
| VString (s : string)
| VBool (b : bool)
| VResponse (r : option SessionResponse)
| VValue (v : JSValue)
| VUnit.

Definition returning {A : Type} (f : A -> OpValue)
    (x : result A * RemoteSession * Env) : result OpValue * RemoteSession * Env :=
  match x with
  | (Ok a, s, env) => (Ok (f a), s, env)
  | (Err e, s, env) => (Err e, s, env)
  end.

Definition pure_op (s : RemoteSession) (env : Env) (r : result OpValue)
    : result OpValue * RemoteSession * Env := (r, s, env).

(** A call made on the client directly, not through the wrapper. *)
Definition direct (c : ClientCall) (env : Env) : result OpValue * Env :=
  let wrap {A} (f : A -> OpValue) (x : result A * Env) : result OpValue * Env :=
    match x with
    | (Ok a, env') => (Ok (f a), env')
    | (Err e, env') => (Err e, env')
    end in
  match c with
  | CallStart o => wrap (fun r => VResponse (Some r)) (logged c (client_start o) env)
  | CallStop id => wrap (fun r => VResponse (Some r)) (logged c (client_stop id) env)
  | CallStatus id => wrap (fun r => VResponse (Some r)) (logged c (client_status id) env)
  | CallScrape id p => wrap VValue (logged c (client_scrape id p) env)
  | CallObserve id p => wrap VValue (logged c (client_observe id p) env)
  | CallExecute id a => wrap VValue (logged c (client_execute id a) env)
  | CallSetCookies id cs => wrap VValue (logged c (client_setCookies id cs) env)
  | CallGetCookies id => wrap VValue (logged c (client_getCookies id) env)
  end.

Definition run_op (op : SessionOp) (s : RemoteSession) (env : Env)
    : result OpValue * RemoteSession * Env :=
  match op with
  | GetSessionId =>
      pure_op s env match sessionId s with
                    | Ok id => Ok (VString id)
                    | Err e => Err e
                    end
  | GetResponse => pure_op s env (Ok (VResponse (response s)))
  | GetIsStarted => pure_op s env (Ok (VBool (isStarted s)))
  | GetIsStopped => pure_op s env (Ok (VBool (isStopped s)))
  | DoStart => returning (fun r => VResponse (Some r)) (start s env)
  | DoStop => returning VResponse (stop s env)
  | DoStatus => returning (fun r => VResponse (Some r)) (status_ s env)
  | DoScrape params => returning VValue (scrape params s env)
  | DoObserve params => returning VValue (observe params s env)
  | DoExecute action => returning VValue (execute action s env)
  | DoSetCookies cookies => returning VValue (setCookies cookies s env)
  | DoGetCookies => returning VValue (getCookies s env)
  | DoDispose => returning (fun _ => VUnit) (asyncDispose s env)
  | Direct c => let (r, env') := direct c env in (r, s, env')
  end.

Inductive Work (T : Type) : Type :=
| Return (t : T)                                  (* return t *)
| Raise (e : JSError)                             (* throw e *)
| Do (op : SessionOp) (k : result OpValue -> Work T).

Fixpoint run_work {T : Type} (work : Work T) (s : RemoteSession) (env : Env)
    : result T * RemoteSession * Env :=
  match work with
  | Return t => (Ok t, s, env)
  | Raise _ e => (Err e, s, env)
  | Do op k =>
      match run_op op s env with
      | (r, s', env') => run_work (k r) s' env'
      end
  end.

(** [RemoteSession.use(client, options, fn)]:
    [[
      const session = new RemoteSession(client, options);
      await session.start();
      try { return await fn(session); } finally { await session.stop(); }
    ]]
    When the [finally] block throws, its error replaces the completion of
    the [try] block. *)
Definition use {T : Type} (options : JSValue) (fn : Work T) (env : Env)
    : result T * RemoteSession * Env :=
  let session := new_RemoteSession options in
  match start session env with
  | (Err e, s1, env1) => (Err e, s1, env1)
  | (Ok _, s1, env1) =>
      match run_work fn s1 env1 with
      | (completion, s2, env2) =>
          match stop s2 env2 with
          | (Err e, s3, env3) => (Err e, s3, env3)
          | (Ok _, s3, env3) => (completion, s3, env3)
          end
      end
  end.

(** The operations that may issue a stop request: [session.stop()], the
    dispose hook, and [client.stop] itself. *)
Definition stops (op : SessionOp) : bool :=
  match op with
  | DoStop | DoDispose => true
  | Direct c => is_stop_call c
  | _ => false
  end.

(** *** The domain client of the SDK as an implementation of the interface

    [RemoteSession] is handed a [SessionsClient]; its state is the [World]
    of the base client.  A value that [SessionResponseSchema] accepted has
    the static type [SessionResponse]: [typed] reads it at that type. *)

Definition as_SessionResponse (v : JSValue) : SessionResponse :=
  {| session_id := match get_prop "session_id" (entries v) with
                   | JStr s => s
                   | _ => ""
                   end;
     snapshot := v |}.

Definition typed (x : result JSValue * World) : result SessionResponse * World :=
  match x with
  | (Ok v, w) => (Ok (as_SessionResponse v), w)
  | (Err e, w) => (Err e, w)
  end.

Definition sessions_client (client : BaseClient) : SessionsClient World :=
  {| client_start := fun options w =>
       typed (SessionsClient_start client (Some options) w);
     client_stop := fun id w => typed (SessionsClient_stop client id w);
     client_status := fun id w => typed (SessionsClient_status client id w);
     client_scrape := SessionsClient_scrape client;
     client_observe := SessionsClient_observe client;
     client_execute := SessionsClient_execute client;
     client_setCookies := SessionsClient_setCookies client;
     client_getCookies := SessionsClient_getCookies client |}.

(** ** Vocabulary of the statements *)

(** A string made of slashes only. *)
Definition only_slashes (s : string) : bool :=
  forallb is_slash (list_ascii_of_string s).

(** The field [k] of an error body, when the body is an object that has
    it. *)
Definition field (k : string) (body : JSValue) : option JSValue :=
  match body with
  | JObj props => lookup k props
  | _ => None
  end.

Definition generic_message (statusCode : number) : string :=
  "API request failed with status " ++ number_toString statusCode.

(** The message of an API error as the error taxonomy words it: the body's
    [detail] field, else its [message] field, else the body itself when it
    is a non-empty string, else a generic message naming the status code. *)
Definition preferred_message (statusCode : number) (body : JSValue) : string :=
  match field "detail" body with
  | Some d => js_String d
  | None =>
      match field "message" body with
      | Some m => js_String m
      | None =>
          match body with
          | JStr s => if String.eqb s "" then generic_message statusCode else s
          | _ => generic_message statusCode
          end
      end
  end.

(** The call throws a [NotteAPIError] with these status code, body and
    path, and with the message of the error taxonomy. *)
Definition raises_api_error {A : Type} (r : result A) (code : number)
    (errBody : JSValue) (rpath : string) : Prop :=
  exists e,
    r = Err (APIError e)
    /\ statusCode e = code
    /\ errorBody e = errBody
    /\ path e = rpath
    /\ message e = preferred_message code errBody ++ " (" ++ rpath ++ ")"
    /\ (forall d, field "detail" errBody = Some (JStr d) ->
                  contains d (message e) = true).

(** The timer that a call to [rawRequest] in world [w] creates. *)
Definition timer_of (w : World) : nat := next_timer w.

(** Whether every declared field of an object schema validates on the
    object's own value for it. *)
Definition fields_valid (schema : ZodType) (props : list (string * JSValue))
    : bool :=
  match schema with
  | ZObject shape _ => all_valid (parse_fields shape props)
  | _ => false
  end.

(** The parts of what a wrapper operation gives back. *)
Definition outcome {A : Type} (x : result A * RemoteSession * Env) : result A :=
  fst (fst x).

Definition session_after {A : Type} (x : result A * RemoteSession * Env)
    : RemoteSession := snd (fst x).

Definition env_after {A : Type} (x : result A * RemoteSession * Env) : Env :=
  snd x.

(** The error of the caller who uses a wrapper that has no identifier. *)
Definition not_started_error : JSError :=
  Error "Session has not been started. Call start() first.".

(** The wrapper right after [start()] got the response [r]. *)
Definition started (options : JSValue) (r : SessionResponse) : RemoteSession :=
  {| options := options; _sessionId := Some (session_id r);
     _response := Some r; _stopped := false |}.

(** The code uses only operations that [allowed] admits. *)
Inductive only_uses (allowed : SessionOp -> bool) {T : Type} : Work T -> Prop :=
| ou_Return : forall t, only_uses allowed (Return t)
| ou_Raise : forall e, only_uses allowed (Raise T e)
| ou_Do : forall op k,
    allowed op = true ->
    (forall r, only_uses allowed (k r)) ->
    only_uses allowed (Do op k).

(** The code never stops the session itself. *)
Definition never_stops {T : Type} (work : Work T) : Prop :=
  only_uses (fun op => negb (stops op)) work.

(** ** Construction and the liveness probe ([base-client.ts], [errors.ts]) *)

(** [AuthenticationError]: [constructor(message = "NOTTE_API_KEY needs to be
    provided")]. *)
Record AuthenticationError : Type := { auth_message : string }.

Definition new_AuthenticationError (message : option string)
    : AuthenticationError :=
  {| auth_message := match message with
                     | Some m => m
                     | None => "NOTTE_API_KEY needs to be provided"
                     end |}.

(** [BaseClientOptions]: a field that is left out is [None]. *)
Record BaseClientOptions : Type := {
  opt_apiKey : option string;
  opt_serverUrl : option string;
  opt_timeoutMs : option number
}.

(** [process.env], as far as the constructor reads it. *)
Record ProcessEnv : Type := {
  NOTTE_API_KEY : option string;
  NOTTE_API_URL : option string
}.

Definition DEFAULT_SERVER_URL : string := "https://api.notte.cc".

Definition DEFAULT_TIMEOUT_MS : number := number_of_Z 60000.

(** [a ?? b] *)
Definition nullish_or {A : Type} (a b : option A) : option A :=
  match a with Some x => Some x | None => b end.

(** [typeof process !== "undefined" ? process.env.X : undefined] *)
Definition from_env (process : option ProcessEnv)
    (read : ProcessEnv -> option string) : option string :=
  match process with Some env => read env | None => None end.

(** The constructor of [BaseClient]: the client, or the
    [AuthenticationError] it throws. *)
Definition new_BaseClient (process : option ProcessEnv)
    (baseEndpointPath : option string) (options : BaseClientOptions)
    : AuthenticationError + BaseClient :=
  let token := nullish_or (opt_apiKey options) (from_env process NOTTE_API_KEY) in
  let built t :=
    {| apiKey := t;
       serverUrl :=
         match nullish_or (opt_serverUrl options)
                 (from_env process NOTTE_API_URL) with
         | Some url => url
         | None => DEFAULT_SERVER_URL
         end;
       timeoutMs := match opt_timeoutMs options with
                    | Some ms => ms
                    | None => DEFAULT_TIMEOUT_MS
                    end;
       baseEndpointPath := baseEndpointPath |} in
  match token with
  | Some t => if truthy t then inr (built t)
              else inl (new_AuthenticationError None)
  | None => inl (new_AuthenticationError None)
  end.

(** The constructor of [SessionsClient]: [super("sessions", options)]. *)
Definition new_SessionsClient (process : option ProcessEnv)
    (options : BaseClientOptions) : AuthenticationError + BaseClient :=
  new_BaseClient process (Some "sessions") options.

(** A [fetch] that is given no abort signal: no timer races it.  It
    resolves with a response or rejects. *)
Variable plain_fetch : list FetchCall -> FetchCall -> result Response.




(** Whether the strings of a list are pairwise distinct. *)
Fixpoint distinct (ks : list string) : bool :=
  match ks with
  | [] => true
  | k :: rest => negb (mem k rest) && distinct rest
  end.

(** The statuses a session snapshot may report. *)
Definition session_statuses : list string :=
  ["active"; "closed"; "error"; "timed_out"].

(** The call of a sessions operation: the URL string under [/sessions], no
    query parameter set, the client's headers. *)
Definition sessions_call (client : BaseClient) (method : Method)
    (rel : string) (body : option JSValue) : FetchCall :=
  {| fc_url := strip_trailing_slashes (serverUrl client) ++ "/sessions" ++ rel;
     fc_query := [];
     fc_method := method;
     fc_headers := getHeaders client;
     fc_body := body |}.

(** The call made [fetch] once, for [call], provided [new URL] accepts the
    URL string of [call] and [JSON.stringify] its body. *)
Definition fetches_once {A : Type} (w : World) (out : result A * World)
    (call : FetchCall) : Prop :=
  URL_valid (fc_url call) = true ->
  stringify_error (fc_body call) = None ->
  fetched (snd out) = (fetched w ++ [call])%list.

(** The operations that need the session identifier. *)
Definition needs_id (op : SessionOp) : bool :=
  match op with
  | GetSessionId | DoStop | DoStatus | DoScrape _ | DoObserve _ | DoExecute _
  | DoSetCookies _ | DoGetCookies => true
  | _ => false
  end.

(** The call that a page or cookie operation of the wrapper forwards. *)
Definition forwarded (op : SessionOp) (id : string) : option ClientCall :=
  match op with
  | DoStatus => Some (CallStatus id)
  | DoScrape params => Some (CallScrape id params)
  | DoObserve params => Some (CallObserve id params)
  | DoExecute action => Some (CallExecute id action)
  | DoSetCookies cookies => Some (CallSetCookies id cookies)
  | DoGetCookies => Some (CallGetCookies id)
  | _ => None
  end.

(** The session a call to the client is about. *)
Definition call_session (c : ClientCall) : option string :=
  match c with
  | CallStart _ => None
  | CallStop id | CallStatus id | CallScrape id _ | CallObserve id _
  | CallExecute id _ | CallSetCookies id _ | CallGetCookies id => Some id
  end.

(** The operations made on the wrapper, not on the client directly. *)
Definition on_wrapper (op : SessionOp) : bool :=
  match op with Direct _ => false | _ => true end.


(** The operations that may change the wrapper. *)
Definition changes_wrapper (op : SessionOp) : bool :=
  match op with DoStart | DoStop | DoDispose => true | _ => false end.

(** What holds of a wrapper used through its public members: a stopped
    wrapper has an identifier and a cached response, and a cached response
    comes with an identifier. *)
Definition well_formed (s : RemoteSession) : Prop :=
  (_stopped s = true -> has_id s = true /\ _response s <> None)
  /\ (_response s <> None -> isStarted s = true).

(* ================================================================== *)
(** * Part II: properties *)
(* ================================================================== *)

(** A proof depends on the parameters of its statement only. *)
Set Default Proof Using "Type".

(** ** [buildUrl] *)

Lemma append_assoc (a b c : string) : (a ++ b) ++ c = a ++ (b ++ c).
Proof. induction a as [|x a IH]; simpl; [reflexivity | now rewrite IH]. Qed.

Lemma append_nil_r (a : string) : a ++ "" = a.
Proof. induction a as [|x a IH]; simpl; [reflexivity | now rewrite IH]. Qed.

Lemma strip_leading_spec (s : string) :
  exists n, s = slashes n ++ strip_leading_slashes s
            /\ starts_with_slash (strip_leading_slashes s) = false.
Proof.
  induction s as [|c s [n [Hs Hn]]]; simpl.
  - exists O. split; reflexivity.
  - destruct (is_slash c) eqn:Hc.
    + exists (S n). split; [|exact Hn].
      unfold is_slash in Hc. apply Ascii.eqb_eq in Hc. subst c.
      simpl. now rewrite <- Hs.
    + exists O. simpl. split; [reflexivity | exact Hc].
Qed.

Lemma strip_trailing_spec (s : string) :
  exists n, s = strip_trailing_slashes s ++ slashes n
            /\ ends_with_slash (strip_trailing_slashes s) = false.
Proof.
  induction s as [|c s [n [Hs Hn]]]; simpl.
  - exists O. split; reflexivity.
  - destruct (strip_trailing_slashes s) as [|d r] eqn:Hr.
    + destruct (is_slash c) eqn:Hc.
      * exists (S n). split; [|reflexivity].
        unfold is_slash in Hc. apply Ascii.eqb_eq in Hc. subst c.
        simpl in *. now rewrite <- Hs.
      * exists n. simpl in *. split; [now rewrite <- Hs | exact Hc].
    + exists n. split; [simpl; f_equal; exact Hs | exact Hn].
Qed.

Lemma strip_trailing_keeps_start (s : string) :
  starts_with_slash s = false ->
  starts_with_slash (strip_trailing_slashes s) = false.
Proof.
  destruct s as [|c s]; simpl; [reflexivity|].
  intros Hc. destruct (strip_trailing_slashes s); [rewrite Hc|]; simpl; exact Hc.
Qed.

Lemma only_slashes_slashes (n : nat) : only_slashes (slashes n) = true.
Proof. induction n; [reflexivity | exact IHn]. Qed.

Lemma only_slashes_app (a b : string) :
  only_slashes (a ++ b) = only_slashes a && only_slashes b.
Proof.
  unfold only_slashes. induction a as [|c a IH]; simpl; [reflexivity|].
  now rewrite IH, andb_assoc.
Qed.

Lemma ends_with_slash_app (a b : string) :
  b <> "" -> ends_with_slash (a ++ b) = ends_with_slash b.
Proof.
  intros Hb. induction a as [|c a IH]; simpl; [reflexivity|].
  rewrite IH. destruct (a ++ b) eqn:E; [|reflexivity].
  destruct a; simpl in E; [congruence | discriminate].
Qed.

(** The three segments of the URL, once their slashes are trimmed. *)
Lemma segments (serverUrl prefix endpointPath : string) :
  exists i j k l,
    serverUrl = strip_trailing_slashes serverUrl ++ slashes i
    /\ ends_with_slash (strip_trailing_slashes serverUrl) = false
    /\ prefix = slashes j ++ strip_slashes prefix ++ slashes k
    /\ starts_with_slash (strip_slashes prefix) = false
    /\ ends_with_slash (strip_slashes prefix) = false
    /\ endpointPath = slashes l ++ strip_leading_slashes endpointPath
    /\ starts_with_slash (strip_leading_slashes endpointPath) = false.
Proof.
  destruct (strip_trailing_spec serverUrl) as [i [Hs1 Hs2]].
  destruct (strip_leading_spec prefix) as [j [Hp1 Hp2]].
  destruct (strip_trailing_spec (strip_leading_slashes prefix)) as [k [Hp3 Hp4]].
  destruct (strip_leading_spec endpointPath) as [l [He1 He2]].
  exists i, j, k, l. unfold strip_slashes.
  repeat split; try assumption.
  - rewrite <- Hp3. exact Hp1.
  - now apply strip_trailing_keeps_start.
Qed.

(** C3.  Whatever slashes end the server URL, surround the domain prefix
    (which holds at least one other character) or start the endpoint path,
    [buildUrl] returns [s/p/e]: [s], [p] and [e] are the server URL, the
    prefix and the path with exactly those slashes removed, so that one
    slash stands between adjacent segments.  For an empty path (or one made
    of slashes only) it returns the bare domain URL [s/p], which has no
    trailing slash. *)
Theorem buildUrl_one_slash_between_segments
    (serverUrl prefix endpointPath : string) :
  only_slashes prefix = false ->
  exists s p e i j k l,
    serverUrl = s ++ slashes i /\ ends_with_slash s = false
    /\ prefix = slashes j ++ p ++ slashes k
    /\ starts_with_slash p = false /\ ends_with_slash p = false /\ p <> ""
    /\ endpointPath = slashes l ++ e /\ starts_with_slash e = false
    /\ buildUrl serverUrl (Some prefix) endpointPath
       = (if truthy e then s ++ "/" ++ p ++ "/" ++ e else s ++ "/" ++ p)
    /\ buildUrl serverUrl (Some prefix) "" = s ++ "/" ++ p
    /\ ends_with_slash (buildUrl serverUrl (Some prefix) "") = false.
Proof.
  intros Hprefix.
  destruct (segments serverUrl prefix endpointPath)
    as [i [j [k [l [Hs [Hs' [Hp [Hp1 [Hp2 [He He']]]]]]]]]].
  assert (Hne : strip_slashes prefix <> "").
  { intros E. rewrite E in Hp. rewrite Hp in Hprefix. simpl in Hprefix.
    rewrite only_slashes_app, !only_slashes_slashes in Hprefix. discriminate. }
  assert (Htr : truthy prefix = true).
  { destruct prefix; [discriminate Hprefix | reflexivity]. }
  exists (strip_trailing_slashes serverUrl), (strip_slashes prefix),
         (strip_leading_slashes endpointPath), i, j, k, l.
  repeat split; try assumption.
  - unfold buildUrl. rewrite Htr.
    destruct (truthy (strip_leading_slashes endpointPath));
      [|reflexivity].
    now rewrite !append_assoc.
  - unfold buildUrl. now rewrite Htr.
  - unfold buildUrl. rewrite Htr. simpl truthy. cbv iota.
    rewrite ends_with_slash_app.
    + change ("/" ++ strip_slashes prefix)
        with (String "/"%char (strip_slashes prefix)).
      simpl. destruct (strip_slashes prefix); [congruence | exact Hp2].
    + discriminate.
Qed.

(** ** [NotteAPIError] and the failure paths of [rawRequest] *)

Lemma prefix_app (a b : string) : String.prefix a (a ++ b) = true.
Proof.
  induction a as [|c a IH]; simpl; [now destruct b|].
  destruct (ascii_dec c c); [exact IH | congruence].
Qed.

Lemma contains_app (a b : string) : contains a (a ++ b) = true.
Proof.
  pose proof (prefix_app a b) as H.
  destruct (a ++ b); cbn [contains]; rewrite H; reflexivity.
Qed.

(** The constructor's choice of message is the preference order of the
    error taxonomy. *)
Lemma derive_message_preferred (statusCode : number) (body : JSValue) :
  derive_message statusCode body = preferred_message statusCode body.
Proof.
  unfold derive_message, preferred_message, field, has_prop, get_prop,
    generic_message.
  destruct body as [| | b | n | z | s | items | props]; try reflexivity.
  - destruct s; reflexivity.
  - destruct (lookup "detail" props); [reflexivity|].
    destruct (lookup "message" props); reflexivity.
Qed.

Lemma rawRequest_responds (client : BaseClient) (endpoint : NotteEndpoint)
    (w : World) (response : Response) :
  URL_valid (fc_url (build_call client endpoint)) = true ->
  stringify_error (fc_body (build_call client endpoint)) = None ->
  network (fetched w) (build_call client endpoint) = Responds response ->
  rawRequest client endpoint w
  = (if negb (ok response) then
       match error_body response with
       | Ok body => Err (APIError (new_NotteAPIError (status response) body
                                     (ep_path endpoint)))
       | Err e => Err e
       end
     else json response,
     clearTimeout (timer_of w)
       {| timers := timer_of w :: timers w;
          next_timer := S (next_timer w);
          fetched := (fetched w ++ [build_call client endpoint])%list |}).
Proof.
  intros Hurl Hser Hnet. unfold rawRequest, fetch, setTimeout. rewrite Hurl.
  simpl negb. cbv iota. rewrite Hser. simpl. rewrite Hnet.
  destruct (ok response); simpl; [reflexivity|].
  destruct (error_body response); reflexivity.
Qed.

(** The error body that [rawRequest] reads from a response. *)
Lemma error_body_cases (response : Response) :
  error_body response
  = match body response with
    | JSONBody v => Ok v
    | NoBody => Ok (JStr "")
    | OtherBody _ =>
        Err (TypeError "Body is unusable: Body has already been read")
    end.
Proof.
  unfold error_body, json, text_after_json.
  destruct (body response); reflexivity.
Qed.

Lemma api_error_raised (client : BaseClient) (endpoint : NotteEndpoint)
    (w : World) (response : Response) (b : JSValue) :
  URL_valid (fc_url (build_call client endpoint)) = true ->
  stringify_error (fc_body (build_call client endpoint)) = None ->
  network (fetched w) (build_call client endpoint) = Responds response ->
  ok response = false ->
  error_body response = Ok b ->
  raises_api_error (fst (rawRequest client endpoint w)) (status response) b
    (ep_path endpoint).
Proof.
  intros Hurl Hser Hnet Hok Hb. unfold raises_api_error.
  exists (new_NotteAPIError (status response) b (ep_path endpoint)).
  rewrite (rawRequest_responds w Hurl Hser Hnet), Hok, Hb. simpl.
  rewrite derive_message_preferred.
  repeat split; try reflexivity.
  intros d Hd. unfold preferred_message. rewrite Hd. simpl.
  apply contains_app.
Qed.

(** C7.  What [rawRequest] throws when the server answers with a status
    that is not a success.  When the body parses as JSON, it is a
    [NotteAPIError] that carries the response's status code, the parsed
    body and the request path; its message is the body's [detail] field,
    else its [message] field, else the body itself when it is a non-empty
    string, else a generic message naming the status code, followed by the
    path, so a [detail] string such as "Not found" is contained in it.
    When the response has no body, it is that error with the empty string
    as body.  When the body holds anything else, the raw body never reaches
    the error: [response.text()] rejects, because [response.json()] has
    read the body, and [rawRequest] throws that [TypeError]. *)
Theorem api_error_of_failed_response (client : BaseClient)
    (endpoint : NotteEndpoint) (w : World) (response : Response) :
  URL_valid (fc_url (build_call client endpoint)) = true ->
  stringify_error (fc_body (build_call client endpoint)) = None ->
  network (fetched w) (build_call client endpoint) = Responds response ->
  ok response = false ->
  (forall v, body response = JSONBody v ->
     raises_api_error (fst (rawRequest client endpoint w)) (status response) v
       (ep_path endpoint))
  /\ (body response = NoBody ->
      raises_api_error (fst (rawRequest client endpoint w)) (status response)
        (JStr "") (ep_path endpoint))
  /\ (forall x, body response = OtherBody x ->
        fst (rawRequest client endpoint w)
        = Err (TypeError "Body is unusable: Body has already been read")).
Proof.
  intros Hurl Hser Hnet Hok.
  pose proof (error_body_cases response) as Hb.
  split; [|split].
  - intros v Hv. rewrite Hv in Hb. now apply api_error_raised.
  - intros Hv. rewrite Hv in Hb. now apply api_error_raised.
  - intros x Hx. rewrite Hx in Hb.
    now rewrite (rawRequest_responds w Hurl Hser Hnet), Hok, Hb.
Qed.

(** ** Timeouts, transport errors and the timer *)

Lemma filter_idem {A : Type} (f : A -> bool) (l : list A) :
  filter f (filter f l) = filter f l.
Proof.
  induction l as [|x l IH]; simpl; [reflexivity|].
  destruct (f x) eqn:E; simpl; [rewrite E, IH|]; auto.
Qed.

(** The pending timers after [rawRequest], when it got as far as [fetch]. *)
Lemma rawRequest_timers (client : BaseClient) (endpoint : NotteEndpoint)
    (w : World) :
  URL_valid (fc_url (build_call client endpoint)) = true ->
  stringify_error (fc_body (build_call client endpoint)) = None ->
  timers (snd (rawRequest client endpoint w))
  = filter (fun t => negb (Nat.eqb t (timer_of w))) (timers w).
Proof.
  intros Hurl Hser. unfold rawRequest, fetch, setTimeout, timer_of.
  rewrite Hurl. simpl negb. cbv iota. rewrite Hser. simpl.
  destruct (network (fetched w) (build_call client endpoint))
    as [response | | err]; simpl.
  - destruct (ok response); simpl.
    + now rewrite Nat.eqb_refl.
    + destruct (error_body response); simpl; now rewrite Nat.eqb_refl.
  - rewrite Nat.eqb_refl. simpl. now rewrite !filter_idem.
  - destruct (is_abort_error err); simpl; rewrite Nat.eqb_refl; simpl;
      now rewrite filter_idem.
Qed.

(** [rawRequest] when [JSON.stringify] throws: the timer has been set,
    [fetch] is not called, and nothing clears the timer. *)
Lemma rawRequest_unserialisable (client : BaseClient)
    (endpoint : NotteEndpoint) (w : World) (err : JSError) :
  URL_valid (fc_url (build_call client endpoint)) = true ->
  stringify_error (fc_body (build_call client endpoint)) = Some err ->
  rawRequest client endpoint w
  = (Err err, {| timers := timer_of w :: timers w;
                 next_timer := S (next_timer w);
                 fetched := fetched w |}).
Proof.
  intros Hurl Hser. unfold rawRequest, setTimeout, timer_of.
  rewrite Hurl. simpl negb. cbv iota. now rewrite Hser.
Qed.

(** C8.  In [rawRequest], when the timeout timer aborts the transport the
    client throws a [NotteAPIError] with status code 0, a message saying
    that the request timed out, and the request path; when the transport
    fails with any error that is not an abort, that very error is thrown.
    On every exit that follows the call to [fetch] (a timeout, a transport
    error, a response of any status), and when the URL is refused, the
    timer the call created is not pending afterwards and no timer has been
    added.  On the exit where [JSON.stringify] throws on the body, the
    timer has been set and stays pending: the error is thrown before the
    [try] block, [fetch] is not called and no [clearTimeout] runs. *)
Theorem rawRequest_timeout_and_timer (client : BaseClient)
    (endpoint : NotteEndpoint) (w : World) :
  let call := build_call client endpoint in
  let out := rawRequest client endpoint w in
  (URL_valid (fc_url call) = true ->
   stringify_error (fc_body call) = None ->
   network (fetched w) call = TimesOut ->
   exists e, fst out = Err (APIError e)
             /\ statusCode e = number_of_Z 0
             /\ message e = "Request timed out (" ++ ep_path endpoint ++ ")"
             /\ contains "timed out" (message e) = true
             /\ path e = ep_path endpoint)
  /\ (forall err, URL_valid (fc_url call) = true ->
        stringify_error (fc_body call) = None ->
        network (fetched w) call = Fails err ->
        is_abort_error err = false ->
        fst out = Err err)
  /\ (URL_valid (fc_url call) = false \/ stringify_error (fc_body call) = None ->
      forall t, In t (timers (snd out)) -> In t (timers w))
  /\ (URL_valid (fc_url call) = true ->
      stringify_error (fc_body call) = None ->
      ~ In (timer_of w) (timers (snd out)))
  /\ (forall err, URL_valid (fc_url call) = true ->
        stringify_error (fc_body call) = Some err ->
        fst out = Err err
        /\ timers (snd out) = timer_of w :: timers w
        /\ fetched (snd out) = fetched w).
Proof.
  intros call out. subst call out.
  split; [|split; [|split; [|split]]].
  - intros Hurl Hser Hnet. unfold rawRequest, fetch, setTimeout.
    rewrite Hurl. simpl negb. cbv iota. rewrite Hser. simpl.
    rewrite Hnet. simpl.
    eexists. split; [reflexivity|]. simpl.
    repeat split; reflexivity.
  - intros err Hurl Hser Hnet Hab. unfold rawRequest, fetch, setTimeout.
    rewrite Hurl. simpl negb. cbv iota. rewrite Hser. simpl.
    rewrite Hnet. simpl. now rewrite Hab.
  - intros Hcase t Ht.
    destruct (URL_valid (fc_url (build_call client endpoint))) eqn:Hurl.
    + destruct Hcase as [Hcase | Hser]; [discriminate Hcase|].
      rewrite rawRequest_timers in Ht by assumption.
      now apply filter_In in Ht.
    + unfold rawRequest in Ht. now rewrite Hurl in Ht.
  - intros Hurl Hser Ht. rewrite rawRequest_timers in Ht by assumption.
    apply filter_In in Ht. destruct Ht as [_ Ht].
    now rewrite Nat.eqb_refl in Ht.
  - intros err Hurl Hser.
    rewrite (@rawRequest_unserialisable client endpoint w err Hurl Hser).
    repeat split.
Qed.

(** ** [requestList] *)

Lemma parse_items_Forall2 (schema : ZodType) (items vs : list JSValue) :
  parse_items schema items = Ok vs
  <-> Forall2 (fun item v => parse schema item = Ok v) items vs.
Proof.
  revert vs. induction items as [|item items IH]; intros vs; simpl.
  - split; intros H; [injection H as <-; constructor | now inversion H].
  - destruct (parse schema item) as [v|e] eqn:Hp.
    + destruct (parse_items schema items) as [vs'|e] eqn:Hr.
      * split; intros H.
        -- injection H as <-. constructor; [exact Hp | now apply IH].
        -- inversion H as [|? v0 ? vs0 H1 H2]; subst.
           apply IH in H2. rewrite Hp in H1. congruence.
      * split; intros H; [discriminate|].
        inversion H as [|? v0 ? vs0 H1 H2]; subst. apply IH in H2. discriminate.
    + split; intros H; [discriminate|].
      inversion H as [|? v0 ? vs0 H1 H2]; subst. congruence.
Qed.

(** C5.  On the raw JSON that [rawRequest] returns, [requestList] validates
    the elements of the array, or of the [items] array of an object, one by
    one and in order: it returns [vs] exactly when [vs] lists, position by
    position, the validated elements.  For a raw value of any other shape
    it throws a [NotteAPIError] with status code 0 whose message names the
    expected shapes. *)
Theorem requestList_shapes (client : BaseClient) (endpoint : NotteEndpoint)
    (w w' : World) (raw : JSValue) :
  rawRequest client endpoint w = (Ok raw, w') ->
  (forall items,
      raw = JArr items
      \/ (exists props, raw = JObj props
                        /\ lookup "items" props = Some (JArr items)) ->
      requestList client endpoint w
      = (parse_items (responseSchema endpoint) items, w')
      /\ forall vs,
           fst (requestList client endpoint w) = Ok vs
           <-> Forall2 (fun item v => parse (responseSchema endpoint) item = Ok v)
                 items vs)
  /\ ((forall items, raw <> JArr items) ->
      (forall props items,
          raw = JObj props -> lookup "items" props <> Some (JArr items)) ->
      exists e,
        requestList client endpoint w = (Err (APIError e), w')
        /\ statusCode e = number_of_Z 0
        /\ message e = "Expected array or { items: [...] } response ("
                       ++ ep_path endpoint ++ ")"
        /\ path e = ep_path endpoint).
Proof.
  intros Hraw. unfold requestList. rewrite Hraw. split.
  - intros items Hshape.
    assert (Hl : list_shape raw = Some items).
    { destruct Hshape as [-> | [props [-> Hi]]]; [reflexivity|].
      unfold list_shape, has_prop, get_prop. now rewrite Hi. }
    rewrite Hl. split; [reflexivity|].
    intros vs. simpl. apply parse_items_Forall2.
  - intros Harr Hobj.
    assert (Hl : list_shape raw = None).
    { destruct raw as [| | b | n | z | s | items | props]; try reflexivity.
      - now elim (Harr items).
      - unfold list_shape, has_prop, get_prop.
        destruct (lookup "items" props) as [v|] eqn:Hi; [|reflexivity].
        destruct v; try reflexivity. now elim (Hobj props items). }
    rewrite Hl. eexists. split; [reflexivity|]. simpl.
    repeat split; reflexivity.
Qed.

(** ** The unknown-key policies of the schemas *)

Lemma mem_In (k : string) (ks : list string) : mem k ks = true <-> In k ks.
Proof.
  unfold mem. rewrite existsb_exists. split.
  - intros [x [Hx E]]. apply String.eqb_eq in E. now subst.
  - intros H. exists k. split; [exact H | apply String.eqb_refl].
Qed.

Lemma lookup_In_keys (k : string) (props : list (string * JSValue)) (v : JSValue) :
  lookup k props = Some v -> In k (keys props).
Proof.
  induction props as [|[k' v'] props IH]; simpl; [discriminate|].
  destruct (String.eqb k k') eqn:E.
  - apply String.eqb_eq in E. subst. now left.
  - intros H. right. now apply IH.
Qed.

Lemma lookup_app_skip (k : string) (a b : list (string * JSValue)) :
  ~ In k (keys a) -> lookup k (a ++ b)%list = lookup k b.
Proof.
  induction a as [|[k' v'] a IH]; simpl; [reflexivity|].
  intros H. destruct (String.eqb k k') eqn:E.
  - apply String.eqb_eq in E. subst k'. exfalso. apply H. now left.
  - apply IH. intros Hin. apply H. now right.
Qed.

Lemma keys_merge_pair (k : string) (v : JSValue) (b : bool) (x : string) :
  In x (keys (merge_pair k v b)) -> x = k.
Proof.
  unfold merge_pair. destruct (String.eqb k "__proto__"); simpl;
    [intros []|].
  destruct v; try destruct b; simpl; intros H;
    first [contradiction | destruct H as [<- | []]; reflexivity].
Qed.

Lemma keys_merged_fields (props : list (string * JSValue))
    (fields : list (string * ParseReturn)) (x : string) :
  In x (keys (flat_map
                (fun kr => merge_pair (fst kr) (value_of (snd kr))
                             (has_prop (fst kr) props)) fields)) ->
  In x (map fst fields).
Proof.
  induction fields as [|[k r] fields IH]; simpl; [intros []|].
  unfold keys in *. rewrite map_app, in_app_iff.
  intros [H | H]; [left; symmetry; now apply keys_merge_pair in H | right; auto].
Qed.

Lemma lookup_passed_through (props : list (string * JSValue))
    (extras : list string) (k : string) (v : JSValue) :
  In k extras -> lookup k props = Some v ->
  v <> JUndefined -> k <> "__proto__" ->
  lookup k (passed_through Passthrough extras props) = Some v.
Proof.
  intros Hin Hv Hdef Hproto. unfold passed_through.
  induction extras as [|k' extras IH]; simpl; [destruct Hin|].
  destruct (String.eqb k k') eqn:E.
  - apply String.eqb_eq in E. subst k'.
    unfold merge_pair, get_prop. rewrite Hv.
    apply String.eqb_neq in Hproto. rewrite Hproto.
    destruct v; try congruence; simpl; now rewrite String.eqb_refl.
  - rewrite lookup_app_skip.
    + apply IH. destruct Hin as [-> | Hin]; [|exact Hin].
      now rewrite String.eqb_refl in E.
    + intros H. apply keys_merge_pair in H. subst.
      now rewrite String.eqb_refl in E.
Qed.

Lemma zparse_object (shape : list (string * ZodType)) (uk : UnknownKeys)
    (props : list (string * JSValue)) :
  zparse (ZObject shape uk) (JObj props)
  = object_result uk props (parse_fields shape props).
Proof.
  simpl. f_equal. unfold parse_fields.
  induction shape as [|[k t] shape IH]; simpl; [reflexivity | now rewrite IH].
Qed.

Lemma parse_fields_keys (shape : list (string * ZodType))
    (props : list (string * JSValue)) :
  map fst (parse_fields shape props) = map fst shape.
Proof. unfold parse_fields. rewrite map_map. reflexivity. Qed.

(** A strict object schema rejects an object that has an undeclared key. *)
Lemma strict_rejects_unknown (shape : list (string * ZodType))
    (props : list (string * JSValue)) (k : string) (v : JSValue) :
  lookup k props = Some v -> mem k (map fst shape) = false ->
  exists issues, zparse (ZObject shape Strict) (JObj props) = Invalid issues.
Proof.
  intros Hk Hnew. rewrite zparse_object. unfold object_result.
  rewrite parse_fields_keys.
  assert (Hin : In k (extra_keys (map fst shape) props)).
  { unfold extra_keys. apply filter_In. split.
    - eapply lookup_In_keys; eassumption.
    - now rewrite Hnew. }
  destruct (extra_keys (map fst shape) props); [destruct Hin|].
  simpl. rewrite andb_false_r. eexists. reflexivity.
Qed.

(** A passthrough object schema accepts an object exactly when its declared
    fields validate, and copies the undeclared keys to the result. *)
Lemma passthrough_keeps_unknown (shape : list (string * ZodType))
    (props : list (string * JSValue)) :
  is_valid (zparse (ZObject shape Passthrough) (JObj props))
  = all_valid (parse_fields shape props)
  /\ (all_valid (parse_fields shape props) = true ->
      exists out,
        zparse (ZObject shape Passthrough) (JObj props) = Valid (JObj out)
        /\ forall k v,
             lookup k props = Some v -> mem k (map fst shape) = false ->
             v <> JUndefined -> k <> "__proto__" ->
             lookup k out = Some v).
Proof.
  rewrite zparse_object. unfold object_result. simpl unrecognized.
  rewrite andb_true_r. split.
  - destruct (all_valid (parse_fields shape props)); reflexivity.
  - intros ->. eexists. split; [reflexivity|].
    intros k v Hk Hnew Hdef Hproto.
    rewrite lookup_app_skip.
    + apply lookup_passed_through; try assumption.
      unfold extra_keys. apply filter_In. split.
      * eapply lookup_In_keys; eassumption.
      * now rewrite parse_fields_keys, Hnew.
    + intros H. apply keys_merged_fields in H.
      rewrite parse_fields_keys in H. apply mem_In in H. congruence.
Qed.

Lemma request_schemas_strict (schema : ZodType) :
  In schema request_schemas -> exists shape, schema = ZObject shape Strict.
Proof.
  unfold request_schemas. simpl.
  intros H. repeat (destruct H as [<- | H]; [eexists; reflexivity|]).
  destruct H.
Qed.

Lemma response_schemas_passthrough (schema : ZodType) :
  In schema response_schemas -> exists shape, schema = ZObject shape Passthrough.
Proof.
  unfold response_schemas. simpl.
  intros H. repeat (destruct H as [<- | H]; [eexists; reflexivity|]).
  destruct H.
Qed.

(** C6 (amended).  Every request schema of the SDK is strict: parsing an
    object that has a key outside the schema's declared field set fails.
    Every response schema is passthrough: an object is accepted exactly
    when its declared fields validate, whatever other keys it carries, and
    then each undeclared key with a defined value (the reserved key
    [__proto__] apart) is present on the parsed result with the same
    value. *)
Theorem unknown_key_policies :
  (forall schema props k v,
      In schema request_schemas ->
      lookup k props = Some v -> mem k (declared schema) = false ->
      exists issues, parse schema (JObj props) = Err (ZodError issues))
  /\ (forall schema props,
      In schema response_schemas ->
      is_ok (parse schema (JObj props)) = fields_valid schema props
      /\ (fields_valid schema props = true ->
          exists out,
            parse schema (JObj props) = Ok (JObj out)
            /\ forall k v,
                 lookup k props = Some v -> mem k (declared schema) = false ->
                 v <> JUndefined -> k <> "__proto__" ->
                 lookup k out = Some v)).
Proof.
  split.
  - intros schema props k v Hs Hk Hnew.
    destruct (request_schemas_strict Hs) as [shape ->].
    destruct (strict_rejects_unknown shape props k Hk Hnew) as [issues Hi].
    exists issues. unfold parse. now rewrite Hi.
  - intros schema props Hs.
    destruct (response_schemas_passthrough Hs) as [shape ->].
    destruct (passthrough_keeps_unknown shape props) as [Hv Hout].
    unfold parse, fields_valid. split.
    + rewrite <- Hv.
      now destruct (zparse (ZObject shape Passthrough) (JObj props)).
    + intros Hf. destruct (Hout Hf) as [out [Hz Hkeep]].
      exists out. rewrite Hz. split; [reflexivity | exact Hkeep].
Qed.

(** ** The lifecycle wrapper *)

Ltac split_match :=
  repeat match goal with
         | H : context [match ?x with _ => _ end] |- _ => destruct x eqn:?
         | |- context [match ?x with _ => _ end] => destruct x eqn:?
         | H : (_, _) = (_, _) |- _ => injection H as ? ?; subst
         end.

Ltac run_wrapper :=
  unfold run_op, pure_op, returning, asyncDispose, status_, scrape, observe,
    execute, setCookies, getCookies, forward, start, stop, logged, direct in *;
  simpl in *.

(** An invariant of the wrapper and of the recorded calls that every
    allowed operation keeps is kept by any code made of them. *)
Lemma run_work_preserves (allowed : SessionOp -> bool)
    (P : RemoteSession -> Env -> Prop) :
  (forall op s env, allowed op = true -> P s env ->
     P (session_after (run_op op s env)) (env_after (run_op op s env))) ->
  forall (T : Type) (work : Work T), only_uses allowed work ->
  forall s env, P s env ->
    P (session_after (run_work work s env)) (env_after (run_work work s env)).
Proof.
  intros Hstep T work Hu. induction Hu as [t | e | op k Hop Hk IH];
    intros s env HP; simpl; try exact HP.
  specialize (Hstep op s env Hop HP).
  destruct (run_op op s env) as [[r s'] env']. now apply IH.
Qed.

Lemma only_uses_any {T : Type} (work : Work T) : only_uses (fun _ => true) work.
Proof. induction work; constructor; auto. Qed.

Lemma has_id_truthy (s : RemoteSession) (id : string) :
  _sessionId s = Some id -> id <> "" -> has_id s = true.
Proof. unfold has_id. intros -> H. destruct id; [congruence | reflexivity]. Qed.

(** Once the wrapper holds a non-empty identifier, no operation changes
    it. *)
Lemma run_op_keeps_id (id : string) (op : SessionOp) (s : RemoteSession)
    (env : Env) :
  id <> "" -> _sessionId s = Some id ->
  _sessionId (session_after (run_op op s env)) = Some id.
Proof.
  intros Hne Hid. pose proof (has_id_truthy s Hid Hne) as Hh.
  unfold session_after.
  destruct op; run_wrapper; rewrite ?Hh, ?Hid; simpl;
    split_match; simpl; auto; congruence.
Qed.

(** Once the wrapper is stopped, no operation changes it, and none reaches
    the client through the wrapper's [stop()]. *)
Lemma run_op_keeps_stopped (op : SessionOp) (s : RemoteSession) (env : Env) :
  has_id s = true -> _stopped s = true ->
  session_after (run_op op s env) = s.
Proof.
  intros Hh Hst. unfold session_after.
  destruct op; run_wrapper; rewrite ?Hh, ?Hst; simpl;
    split_match; simpl; auto; congruence.
Qed.

Lemma stop_calls_logged (env : Env) (c : ClientCall) (sv : Server) :
  stop_calls {| calls := (calls env ++ [c])%list; server := sv |}
  = if is_stop_call c then S (stop_calls env) else stop_calls env.
Proof.
  unfold stop_calls. simpl. rewrite filter_app, length_app. simpl.
  destruct (is_stop_call c); simpl; lia.
Qed.

(** Code that never stops the session leaves a started wrapper started and
    issues no stop request. *)
Lemma run_op_never_stops (id : string) (n : nat) (op : SessionOp)
    (s : RemoteSession) (env : Env) :
  id <> "" -> negb (stops op) = true ->
  _sessionId s = Some id /\ _stopped s = false /\ stop_calls env = n ->
  _sessionId (session_after (run_op op s env)) = Some id
  /\ _stopped (session_after (run_op op s env)) = false
  /\ stop_calls (env_after (run_op op s env)) = n.
Proof.
  intros Hne Hop [Hid [Hst Hn]]. pose proof (has_id_truthy s Hid Hne) as Hh.
  unfold session_after, env_after.
  destruct op; try discriminate Hop; run_wrapper;
    rewrite ?Hh, ?Hid; simpl; unfold sessionId; rewrite ?Hid;
    try (destruct c; try discriminate Hop; simpl);
    split_match; unfold logged in *; split_match; simpl;
    rewrite ?stop_calls_logged; simpl; auto; try congruence.
Qed.

Lemma run_work_keeps_id (id : string) {T : Type} (work : Work T)
    (s : RemoteSession) (env : Env) :
  id <> "" -> _sessionId s = Some id ->
  _sessionId (session_after (run_work work s env)) = Some id.
Proof.
  intros Hne Hid.
  apply run_work_preserves
    with (allowed := fun _ => true) (P := fun s _ => _sessionId s = Some id);
    auto.
  - intros op s0 env0 _ H. now apply run_op_keeps_id.
  - apply only_uses_any.
Qed.

Lemma run_work_keeps_stopped {T : Type} (work : Work T) (s : RemoteSession)
    (env : Env) :
  has_id s = true -> _stopped s = true ->
  session_after (run_work work s env) = s.
Proof.
  intros Hh Hst.
  apply run_work_preserves
    with (allowed := fun _ => true) (P := fun s0 _ => s0 = s); auto.
  - intros op s0 env0 _ ->. now apply run_op_keeps_stopped.
  - apply only_uses_any.
Qed.

Lemma sessionId_of_id (s : RemoteSession) (id : string) :
  _sessionId s = Some id -> id <> "" -> sessionId s = Ok id.
Proof. unfold sessionId. intros -> H. destruct id; [congruence | reflexivity]. Qed.

(** C1.  Take a wrapper whose [stop()] succeeds for the first time, with
    the response [r]: that call makes one stop request to the domain
    client.  From then on, whatever is done with the wrapper in between,
    every call to [stop()] returns [r] and changes neither the wrapper, nor
    the recorded calls, nor the state behind the client: no request is
    made.  So two calls in a row issue one stop request and return the same
    snapshot. *)
Theorem stop_is_idempotent (s s1 : RemoteSession) (env env1 : Env)
    (r : option SessionResponse) :
  _stopped s = false ->
  stop s env = (Ok r, s1, env1) ->
  (exists id, _sessionId s = Some id
              /\ calls env1 = (calls env ++ [CallStop id])%list)
  /\ stop_calls env1 = S (stop_calls env)
  /\ stop s1 env1 = (Ok r, s1, env1)
  /\ stop_calls (env_after (stop s1 env1)) = S (stop_calls env)
  /\ forall (T : Type) (work : Work T),
       let s2 := session_after (run_work work s1 env1) in
       let env2 := env_after (run_work work s1 env1) in
       stop s2 env2 = (Ok r, s2, env2).
Proof.
  intros Hst Hstop. unfold stop in Hstop. rewrite Hst in Hstop.
  destruct (_sessionId s) as [id|] eqn:Hid; [|discriminate].
  destruct (truthy id) eqn:Hid'; [|discriminate].
  unfold logged in Hstop.
  destruct (client_stop id (server env)) as [[resp|e] sv]; [|discriminate].
  injection Hstop as <- <- <-.
  assert (Hcached : forall s' env',
             _stopped s' = true -> stop s' env' = (Ok (_response s'), s', env')).
  { intros s' env' H. unfold stop. now rewrite H. }
  split; [exists id; split; reflexivity|].
  split; [now rewrite stop_calls_logged|].
  split; [now apply Hcached|].
  split; [rewrite Hcached by reflexivity; unfold env_after; simpl;
          now rewrite stop_calls_logged|].
  intros T work s2 env2. subst s2.
  rewrite run_work_keeps_stopped; [now apply Hcached | | reflexivity].
  unfold has_id. simpl. exact Hid'.
Qed.

(** C2 (amended).  When the client's start call succeeds with a non-empty
    identifier and the work function does not itself stop the session,
    [RemoteSession.use] runs the work on the started wrapper and then
    issues exactly one stop request, whether the work returns or raises;
    and when that stop request succeeds, [use] completes as the work did:
    with the work's value, or with the very error the work raised. *)
Theorem use_stops_once_and_keeps_the_error (T : Type) (opts : JSValue)
    (fn : Work T) (env : Env) (r0 : SessionResponse) (sv0 : Server) :
  client_start opts (server env) = (Ok r0, sv0) ->
  session_id r0 <> "" ->
  never_stops fn ->
  let env1 := {| calls := (calls env ++ [CallStart opts])%list; server := sv0 |} in
  let ran := run_work fn (started opts r0) env1 in
  stop_calls (env_after (use opts fn env)) = S (stop_calls env)
  /\ (is_ok (fst (client_stop (session_id r0) (server (env_after ran)))) = true ->
      outcome (use opts fn env) = outcome ran
      /\ forall e, outcome ran = Err e -> outcome (use opts fn env) = Err e).
Proof.
  intros Hstart Hne Hns env1 ran.
  assert (Hinv : _sessionId (session_after ran) = Some (session_id r0)
                 /\ _stopped (session_after ran) = false
                 /\ stop_calls (env_after ran) = stop_calls env).
  { apply run_work_preserves
      with (allowed := fun op => negb (stops op))
           (P := fun s e => _sessionId s = Some (session_id r0)
                            /\ _stopped s = false
                            /\ stop_calls e = stop_calls env); auto.
    - intros op s0 env0 Hop H. now apply run_op_never_stops.
    - repeat split. unfold env1. now rewrite stop_calls_logged. }
  destruct Hinv as [Hid [Hst Hn]].
  assert (Huse : use opts fn env
                 = match stop (session_after ran) (env_after ran) with
                   | (Err e, s3, env3) => (Err e, s3, env3)
                   | (Ok _, s3, env3) => (outcome ran, s3, env3)
                   end).
  { unfold use, start, logged. simpl. rewrite Hstart.
    fold env1. fold (started opts r0). fold ran.
    destruct ran as [[c s2] env2]. reflexivity. }
  rewrite Huse. unfold stop, logged. rewrite Hst, Hid.
  destruct (session_id r0) as [|ch rest] eqn:Eid; [congruence|]. simpl truthy.
  cbv iota.
  destruct (client_stop (String ch rest) (server (env_after ran)))
    as [[resp|e] sv]; unfold env_after, outcome; simpl.
  - split; [rewrite stop_calls_logged; simpl; now f_equal|].
    intros _. split; [reflexivity|]. auto.
  - split; [rewrite stop_calls_logged; simpl; now f_equal|].
    discriminate.
Qed.

(** C4 (amended).  A wrapper made by the constructor has no identifier:
    reading [sessionId] throws the caller-misuse error, and keeps throwing
    after any operation other than a [start()] that succeeds.  A wrapper
    attached with [fromId] to a non-empty identifier reads as that
    identifier, without any [start()], and still does after any use of the
    wrapper; attached to the empty string, it throws the caller-misuse
    error like an unstarted wrapper.  Once [start()] has succeeded with a
    non-empty identifier, [sessionId] returns that identifier, and still
    returns it after any further use of the wrapper: it is never
    reassigned or cleared. *)
Theorem session_id_is_stable :
  (forall opts, sessionId (new_RemoteSession opts) = Err not_started_error)
  /\ (forall id, sessionId (fromId id)
                 = if truthy id then Ok id else Err not_started_error)
  /\ (forall id env (T : Type) (work : Work T),
        id <> "" ->
        sessionId (session_after (run_work work (fromId id) env)) = Ok id)
  /\ (forall op s env,
        _sessionId s = None ->
        op <> DoStart \/ is_ok (outcome (run_op op s env)) = false ->
        _sessionId (session_after (run_op op s env)) = None
        /\ sessionId (session_after (run_op op s env)) = Err not_started_error)
  /\ (forall s env r s1 env1,
        start s env = (Ok r, s1, env1) ->
        session_id r <> "" ->
        sessionId s1 = Ok (session_id r)
        /\ forall (T : Type) (work : Work T),
             sessionId (session_after (run_work work s1 env1))
             = Ok (session_id r)).
Proof.
  split; [reflexivity|].
  split; [intros id; unfold sessionId, fromId; simpl; now destruct id|].
  split; [intros id env T work Hne; apply sessionId_of_id; [|exact Hne];
          now apply run_work_keeps_id|].
  split.
  - intros op s env Hid Hop.
    assert (H : _sessionId (session_after (run_op op s env)) = None).
    { unfold session_after, outcome in *.
      destruct op; run_wrapper; unfold has_id, sessionId in *;
        rewrite ?Hid in *; simpl in *; split_match; simpl in *; auto;
        try congruence.
      destruct Hop as [Hop | Hop]; congruence. }
    split; [exact H|]. unfold sessionId. now rewrite H.
  - intros s env r s1 env1 Hstart Hne.
    assert (Hid : _sessionId s1 = Some (session_id r)).
    { unfold start, logged in Hstart.
      split_match; try discriminate; reflexivity. }
    split; [now apply sessionId_of_id|].
    intros T work. apply sessionId_of_id; [|exact Hne].
    now apply run_work_keeps_id.
Qed.

(** C10.  When the client's start call rejects, [start()] on an unstarted
    wrapper rejects with the same error and leaves the wrapper as it was:
    no identifier (reading it throws, [isStarted] is false) and no cached
    response.  A later [start()] is let through to the client again, and
    when the client then succeeds it behaves as a first start: it stores
    the identifier and the response. *)
Theorem failed_start_changes_nothing (opts : JSValue) (env : Env)
    (e : JSError) (sv : Server) :
  client_start opts (server env) = (Err e, sv) ->
  let s := new_RemoteSession opts in
  let env' := {| calls := (calls env ++ [CallStart opts])%list; server := sv |} in
  start s env = (Err e, s, env')
  /\ sessionId (session_after (start s env)) = Err not_started_error
  /\ isStarted (session_after (start s env)) = false
  /\ response (session_after (start s env)) = None
  /\ forall r sv',
       client_start opts sv = (Ok r, sv') ->
       start (session_after (start s env)) (env_after (start s env))
       = (Ok r, started opts r,
          {| calls := (calls env' ++ [CallStart opts])%list; server := sv' |}).
Proof.
  intros Hfail s env'.
  assert (H : start s env = (Err e, s, env')).
  { unfold start, logged. simpl. now rewrite Hfail. }
  rewrite H. unfold session_after, env_after. simpl.
  repeat split.
  intros r sv' Hok. unfold start, logged. simpl. now rewrite Hok.
Qed.

(** ** Cookies *)

Lemma is_ok_parse (schema : ZodType) (v : JSValue) :
  is_ok (parse schema v) = is_valid (zparse schema v).
Proof. unfold parse. now destruct (zparse schema v). Qed.




Lemma request_sends (client : BaseClient) (ep : NotteEndpoint) (w : World) :
  URL_valid (fc_url (build_call client ep)) = true ->
  stringify_error (fc_body (build_call client ep)) = None ->
  fetched (snd (request client ep w))
  = (fetched w ++ [build_call client ep])%list.
Proof.
  intros Hurl Hser. unfold request, rawRequest, fetch, setTimeout.
  rewrite Hurl. simpl negb. cbv iota. rewrite Hser. simpl.
  destruct (network (fetched w) (build_call client ep)) as [r | | err]; simpl.
  - destruct (ok r); simpl.
    + destruct (json r); reflexivity.
    + destruct (error_body r); reflexivity.
  - reflexivity.
  - destruct (is_abort_error err); reflexivity.
Qed.


(** ** The typed reading of a session response *)

(** What an object schema whose first field is the string [session_id]
    accepts has a string under that key: the reading of [as_SessionResponse]
    is the parsed identifier. *)
Lemma parsed_session_id (rest : list (string * ZodType)) (uk : UnknownKeys)
    (raw v : JSValue) :
  parse (ZObject (("session_id", ZString) :: rest) uk) raw = Ok v ->
  exists s, get_prop "session_id" (entries v) = JStr s
            /\ session_id (as_SessionResponse v) = s.
Proof.
  unfold parse.
  destruct (zparse (ZObject (("session_id", ZString) :: rest) uk) raw)
    as [out|issues] eqn:Hz; [|discriminate].
  intros H. injection H as <-.
  destruct raw as [| | b | n | z | s | items | props]; try discriminate Hz.
  rewrite zparse_object in Hz. unfold object_result in Hz.
  cbn [parse_fields map fst snd all_valid forallb flat_map] in Hz.
  fold (parse_fields rest props) in Hz.
  destruct (get_prop "session_id" props) eqn:Hid; simpl in Hz;
    try discriminate Hz.
  match type of Hz with
  | (if ?c then _ else _) = _ => destruct c; [|discriminate Hz]
  end.
  injection Hz as <-. exists s. unfold as_SessionResponse.
  cbn [entries app]. unfold get_prop. simpl. split; reflexivity.
Qed.

(* ------------------------------------------------------------------ *)
(** ** Further properties of the base client *)

Lemma strip_trailing_slashes_only (n : nat) :
  strip_trailing_slashes (slashes n) = "".
Proof. induction n as [|n IH]; simpl; [reflexivity | now rewrite IH]. Qed.

Lemma strip_trailing_app_slashes (s : string) (n : nat) :
  strip_trailing_slashes (s ++ slashes n) = strip_trailing_slashes s.
Proof.
  induction s as [|c s IH]; simpl;
    [apply strip_trailing_slashes_only | now rewrite IH].
Qed.

Lemma strip_leading_slashes_app (n : nat) (e : string) :
  strip_leading_slashes (slashes n ++ e) = strip_leading_slashes e.
Proof. induction n as [|n IH]; simpl; [reflexivity | exact IH]. Qed.

Lemma strip_leading_only_slashes (p : string) :
  only_slashes p = true -> strip_leading_slashes p = "".
Proof.
  unfold only_slashes. induction p as [|c p IH]; simpl; [reflexivity|].
  destruct (is_slash c); simpl; [exact IH | discriminate].
Qed.

Lemma strip_leading_app (p q : string) :
  strip_leading_slashes (p ++ q)
  = if only_slashes p then strip_leading_slashes q
    else strip_leading_slashes p ++ q.
Proof.
  unfold only_slashes. induction p as [|c p IH]; simpl; [reflexivity|].
  destruct (is_slash c); simpl; [exact IH | reflexivity].
Qed.

Lemma strip_slashes_surrounded (j k : nat) (p : string) :
  strip_slashes (slashes j ++ p ++ slashes k) = strip_slashes p.
Proof.
  unfold strip_slashes. rewrite strip_leading_slashes_app, strip_leading_app.
  destruct (only_slashes p) eqn:Hp.
  - rewrite (strip_leading_only_slashes p Hp).
    now rewrite (strip_leading_only_slashes (slashes k) (only_slashes_slashes k)).
  - apply strip_trailing_app_slashes.
Qed.

(** X1.  Slashes added at the junctions do not change the URL: any number
    of slashes appended to the server URL, put around a non-empty prefix or
    put in front of the endpoint path give the URL that [buildUrl] builds
    without them. *)
Theorem buildUrl_ignores_junction_slashes
    (serverUrl prefix endpointPath : string) (i j k l : nat) :
  prefix <> "" ->
  buildUrl (serverUrl ++ slashes i) (Some (slashes j ++ prefix ++ slashes k))
    (slashes l ++ endpointPath)
  = buildUrl serverUrl (Some prefix) endpointPath.
Proof.
  intros Hp. unfold buildUrl.
  rewrite strip_trailing_app_slashes, strip_leading_slashes_app,
    strip_slashes_surrounded.
  assert (H1 : truthy prefix = true)
    by (destruct prefix; [congruence | reflexivity]).
  assert (H2 : truthy (slashes j ++ prefix ++ slashes k) = true).
  { destruct j; simpl; [|reflexivity]. destruct prefix; [congruence|reflexivity]. }
  now rewrite H1, H2.
Qed.

(** X2.  A prefix that is not empty and holds nothing but slashes is not
    normalised away: [buildUrl] then appends a slash to the trimmed server
    URL, so the bare URL ends with a slash and a path is joined with two
    slashes. *)
Theorem buildUrl_with_a_prefix_of_slashes
    (serverUrl prefix endpointPath : string) :
  prefix <> "" -> only_slashes prefix = true ->
  buildUrl serverUrl (Some prefix) endpointPath
  = if truthy (strip_leading_slashes endpointPath)
    then strip_trailing_slashes serverUrl ++ "//"
         ++ strip_leading_slashes endpointPath
    else strip_trailing_slashes serverUrl ++ "/".
Proof.
  intros Hne Hp. unfold buildUrl, strip_slashes.
  rewrite (strip_leading_only_slashes prefix Hp). simpl strip_trailing_slashes.
  assert (H1 : truthy prefix = true)
    by (destruct prefix; [congruence | reflexivity]).
  rewrite H1.
  destruct (truthy (strip_leading_slashes endpointPath)); [|reflexivity].
  now rewrite !append_assoc.
Qed.

(** X3.  The constructor resolves the API key from the explicit option,
    else from the environment, and throws the [AuthenticationError] exactly
    when what it resolved is missing or empty; in particular an explicit
    empty key is not replaced by the environment's.  A client that is built
    holds a non-empty key, the server URL of the option, else of the
    environment, else the default, and the timeout of the option or the
    default. *)
Theorem new_BaseClient_resolution (process : option ProcessEnv)
    (prefix : option string) (options : BaseClientOptions) :
  let token := match opt_apiKey options with
               | Some k => Some k
               | None => from_env process NOTTE_API_KEY
               end in
  match new_BaseClient process prefix options with
  | inl e =>
      (token = None \/ token = Some "")
      /\ auth_message e = "NOTTE_API_KEY needs to be provided"
  | inr c =>
      token = Some (apiKey c) /\ apiKey c <> ""
      /\ baseEndpointPath c = prefix
      /\ serverUrl c
         = match opt_serverUrl options with
           | Some url => url
           | None => match from_env process NOTTE_API_URL with
                     | Some url => url
                     | None => "https://api.notte.cc"
                     end
           end
      /\ timeoutMs c = match opt_timeoutMs options with
                       | Some ms => ms
                       | None => number_of_Z 60000
                       end
  end.
Proof.
  unfold new_BaseClient, nullish_or.
  destruct (opt_apiKey options) as [k|];
    [|destruct (from_env process NOTTE_API_KEY) as [k|]];
    try (destruct k; simpl; repeat split; auto; try discriminate;
         destruct (opt_serverUrl options); reflexivity).
  simpl. split; [now left | reflexivity].
Qed.





Lemma rawRequest_fetched (client : BaseClient) (endpoint : NotteEndpoint)
    (w : World) :
  fetched (snd (rawRequest client endpoint w))
  = if reaches_fetch client endpoint
    then (fetched w ++ [build_call client endpoint])%list
    else fetched w.
Proof.
  unfold reaches_fetch, rawRequest, fetch, setTimeout.
  destruct (URL_valid (fc_url (build_call client endpoint)));
    [|reflexivity].
  cbn [negb andb].
  destruct (stringify_error (fc_body (build_call client endpoint)));
    [reflexivity|]. simpl.
  destruct (network (fetched w) (build_call client endpoint)) as [r | | err];
    simpl.
  - destruct (ok r); simpl; [reflexivity|].
    destruct (error_body r); reflexivity.
  - reflexivity.
  - destruct (is_abort_error err); reflexivity.
Qed.

Lemma fetch_log (client : BaseClient) (endpoint : NotteEndpoint) (w : World) :
  let after := if reaches_fetch client endpoint
               then (fetched w ++ [build_call client endpoint])%list
               else fetched w in
  fetched (snd (rawRequest client endpoint w)) = after
  /\ fetched (snd (request client endpoint w)) = after
  /\ fetched (snd (requestList client endpoint w)) = after.
Proof.
  intros after. subst after.
  pose proof (rawRequest_fetched client endpoint w) as H.
  split; [exact H|]. unfold request, requestList.
  destruct (rawRequest client endpoint w) as [[raw|e] w']; simpl in *.
  - split; [exact H|]. destruct (list_shape raw); exact H.
  - split; exact H.
Qed.

(** X6.  Nothing is retried.  When [new URL] accepts the URL and
    [JSON.stringify] the body, [rawRequest], [request] and [requestList]
    have called [fetch] exactly once, with the call built from the
    endpoint, whatever the outcome (a value, a validation failure, an API
    error, a timeout, a transport error).  When the URL is refused or the
    body cannot be serialised, they throw without any call to [fetch]. *)
Theorem one_fetch_per_request (client : BaseClient) (endpoint : NotteEndpoint)
    (w : World) :
  (URL_valid (fc_url (build_call client endpoint)) = true ->
   stringify_error (fc_body (build_call client endpoint)) = None ->
   fetched (snd (rawRequest client endpoint w))
   = (fetched w ++ [build_call client endpoint])%list
   /\ fetched (snd (request client endpoint w))
      = (fetched w ++ [build_call client endpoint])%list
   /\ fetched (snd (requestList client endpoint w))
      = (fetched w ++ [build_call client endpoint])%list)
  /\ (URL_valid (fc_url (build_call client endpoint)) = false
      \/ stringify_error (fc_body (build_call client endpoint)) <> None ->
      is_ok (fst (rawRequest client endpoint w)) = false
      /\ is_ok (fst (request client endpoint w)) = false
      /\ is_ok (fst (requestList client endpoint w)) = false
      /\ fetched (snd (rawRequest client endpoint w)) = fetched w
      /\ fetched (snd (request client endpoint w)) = fetched w
      /\ fetched (snd (requestList client endpoint w)) = fetched w).
Proof.
  pose proof (fetch_log client endpoint w) as Hlog. simpl in Hlog.
  split.
  - intros Hurl Hser.
    assert (Hr : reaches_fetch client endpoint = true)
      by (unfold reaches_fetch; now rewrite Hurl, Hser).
    now rewrite Hr in Hlog.
  - intros Hno.
    assert (Hr : reaches_fetch client endpoint = false).
    { unfold reaches_fetch. destruct Hno as [-> | Hno]; [reflexivity|].
      destruct (stringify_error (fc_body (build_call client endpoint)));
        [apply andb_false_r | now elim Hno]. }
    rewrite Hr in Hlog. destruct Hlog as [H1 [H2 H3]].
    assert (Hraw : is_ok (fst (rawRequest client endpoint w)) = false).
    { unfold rawRequest, setTimeout.
      destruct (URL_valid (fc_url (build_call client endpoint))) eqn:Hurl;
        [|reflexivity].
      destruct Hno as [Hno | Hno]; [discriminate Hno|]. cbn [negb].
      destruct (stringify_error (fc_body (build_call client endpoint)));
        [reflexivity | now elim Hno]. }
    repeat split; try assumption.
    + unfold request.
      destruct (rawRequest client endpoint w) as [[raw|e] w'];
        [discriminate Hraw | reflexivity].
    + unfold requestList.
      destruct (rawRequest client endpoint w) as [[raw|e] w'];
        [discriminate Hraw | reflexivity].
Qed.

(* ------------------------------------------------------------------ *)
(** ** Further properties of the domain client and its schemas *)

Lemma parse_invalid (schema : ZodType) (v : JSValue) :
  is_valid (zparse schema v) = false ->
  exists issues, parse schema v = Err (ZodError issues).
Proof.
  unfold parse. destruct (zparse schema v) as [out|issues]; [discriminate|].
  intros _. now exists issues.
Qed.

(** An object schema rejects an object one of whose declared fields does
    not validate. *)
Lemma invalid_field (shape : list (string * ZodType)) (uk : UnknownKeys)
    (props : list (string * JSValue)) (k : string) (t : ZodType) :
  In (k, t) shape ->
  is_valid (zparse t (get_prop k props)) = false ->
  is_valid (zparse (ZObject shape uk) (JObj props)) = false.
Proof.
  intros Hin Hbad. rewrite zparse_object. unfold object_result.
  destruct (all_valid (parse_fields shape props)) eqn:Hall; [|reflexivity].
  unfold all_valid in Hall. rewrite forallb_forall in Hall.
  specialize (Hall (k, zparse t (get_prop k props))).
  simpl in Hall. rewrite Hbad in Hall.
  assert (false = true); [|discriminate].
  apply Hall. unfold parse_fields.
  change (k, zparse t (get_prop k props))
    with ((fun kt : string * ZodType =>
             (fst kt, zparse (snd kt) (get_prop (fst kt) props))) (k, t)).
  now apply in_map.
Qed.

Lemma strict_parse_rejects (shape : list (string * ZodType))
    (props : list (string * JSValue)) (k : string) (v : JSValue) :
  lookup k props = Some v -> mem k (map fst shape) = false ->
  exists issues, parse (ZObject shape Strict) (JObj props) = Err (ZodError issues).
Proof.
  intros Hk Hnew.
  destruct (strict_rejects_unknown shape props k Hk Hnew) as [issues Hi].
  exists issues. unfold parse. now rewrite Hi.
Qed.

(** X7.  A parameter object with a key that the request schema does not
    declare never reaches the network: [start], [list], [scrape], [observe]
    and [execute] throw the [ZodError] and leave the world as it was (no
    call to [fetch], no timer). *)
Theorem unknown_parameter_stops_before_the_network (client : BaseClient)
    (sessionId : string) (props : list (string * JSValue)) (k : string)
    (v : JSValue) (w : World) :
  lookup k props = Some v ->
  (mem k (declared SessionStartRequestSchema) = false ->
   exists issues,
     SessionsClient_start client (Some (JObj props)) w = (Err (ZodError issues), w))
  /\ (mem k (declared SessionListRequestSchema) = false ->
      exists issues,
        SessionsClient_list client (Some (JObj props)) w
        = (Err (ZodError issues), w))
  /\ (mem k (declared ScrapeRequestSchema) = false ->
      exists issues,
        SessionsClient_scrape client sessionId (Some (JObj props)) w
        = (Err (ZodError issues), w))
  /\ (mem k (declared ObserveRequestSchema) = false ->
      exists issues,
        SessionsClient_observe client sessionId (Some (JObj props)) w
        = (Err (ZodError issues), w))
  /\ (mem k (declared ExecutionRequestSchema) = false ->
      exists issues,
        SessionsClient_execute client sessionId (JObj props) w
        = (Err (ZodError issues), w)).
Proof.
  intros Hk.
  repeat split; intros Hnew;
    match goal with
    | |- exists _, ?op = _ =>
        let H := fresh in
        destruct (strict_parse_rejects _ props k Hk Hnew) as [issues H];
        exists issues;
        unfold SessionsClient_start, SessionsClient_list, SessionsClient_scrape,
          SessionsClient_observe, SessionsClient_execute, parse_or_empty;
        cbn [if_truthy js_truthy];
        unfold SessionStartRequestSchema, SessionListRequestSchema,
          ScrapeRequestSchema, ObserveRequestSchema, ExecutionRequestSchema;
        now rewrite H
    end.
Qed.

(** X8.  [execute] has no default action: an action that is not an object,
    or whose [type] is missing or is not a string, is rejected by the
    request schema before any call to [fetch]. *)
Theorem execute_requires_a_type (client : BaseClient) (sessionId : string)
    (action : JSValue) (w : World) :
  (forall s, get_prop "type" (entries action) <> JStr s) ->
  exists issues,
    SessionsClient_execute client sessionId action w = (Err (ZodError issues), w).
Proof.
  intros Hty.
  assert (Hbad : is_valid (zparse ExecutionRequestSchema action) = false).
  { destruct action as [| | b | n | z | s | items | props]; try reflexivity.
    unfold ExecutionRequestSchema.
    apply invalid_field with (k := "type") (t := ZString); [now left|].
    simpl in Hty. cbn [zparse].
    destruct (get_prop "type" props); try reflexivity. now elim (Hty s). }
  destruct (parse_invalid _ _ Hbad) as [issues Hi].
  exists issues. unfold SessionsClient_execute. now rewrite Hi.
Qed.

(** X9.  [start] sends no request for a [max_duration_minutes] or an
    [idle_timeout_minutes] that is a number but not a positive integer. *)
Theorem start_rejects_bad_durations (client : BaseClient)
    (props : list (string * JSValue)) (k : string) (n : number) (w : World) :
  k = "max_duration_minutes" \/ k = "idle_timeout_minutes" ->
  get_prop k props = JNum n ->
  Number_isInteger n = false \/ number_gt0 n = false ->
  exists issues,
    SessionsClient_start client (Some (JObj props)) w = (Err (ZodError issues), w).
Proof.
  intros Hk Hn Hbad.
  assert (Hinv : is_valid (zparse SessionStartRequestSchema (JObj props)) = false).
  { unfold SessionStartRequestSchema.
    apply invalid_field
      with (k := k) (t := ZOptional (ZNumber [CheckInt; CheckPositive])).
    - destruct Hk as [-> | ->]; simpl; auto.
    - rewrite Hn. cbn [zparse]. destruct (Number_isNaN n); [reflexivity|].
      simpl. destruct Hbad as [-> | ->]; [reflexivity|].
      destruct (Number_isInteger n); reflexivity. }
  destruct (parse_invalid _ _ Hinv) as [issues Hi].
  exists issues. unfold SessionsClient_start, parse_or_empty.
  cbn [if_truthy js_truthy]. now rewrite Hi.
Qed.

Lemma distinct_NoDup (ks : list string) : distinct ks = true -> NoDup ks.
Proof.
  induction ks as [|k ks IH]; simpl; [constructor|].
  intros H. apply andb_true_iff in H. destruct H as [H1 H2].
  constructor; [|now apply IH].
  intros Hin. apply mem_In in Hin. now rewrite Hin in H1.
Qed.

Lemma lookup_merge_pair_other (k k' : string) (v : JSValue) (b : bool)
    (rest : list (string * JSValue)) :
  k <> k' -> lookup k (merge_pair k' v b ++ rest)%list = lookup k rest.
Proof.
  intros Hne. apply lookup_app_skip. intros Hin.
  apply keys_merge_pair in Hin. contradiction.
Qed.

(** Where a declared field that validated to a defined value stands in the
    output of [mergeObjectSync]. *)
Lemma lookup_merged_field (props rest : list (string * JSValue))
    (fields : list (string * ParseReturn)) (k : string) (r : ParseReturn) :
  NoDup (map fst fields) -> In (k, r) fields ->
  k <> "__proto__" -> value_of r <> JUndefined ->
  lookup k (flat_map
              (fun kr => merge_pair (fst kr) (value_of (snd kr))
                           (has_prop (fst kr) props)) fields ++ rest)%list
  = Some (value_of r).
Proof.
  intros Hnd Hin Hproto Hdef.
  induction fields as [|[k' r'] fields IH]; [destruct Hin|].
  simpl. rewrite <- app_assoc. inversion Hnd as [|? ? Hk' Hnd']; subst.
  destruct (String.eqb k k') eqn:E.
  - apply String.eqb_eq in E. subst k'.
    assert (r' = r).
    { destruct Hin as [Hin | Hin]; [congruence|].
      exfalso. apply Hk'. change k with (fst (k, r)). now apply in_map. }
    subst r'. unfold merge_pair.
    apply String.eqb_neq in Hproto. rewrite Hproto.
    destruct (value_of r); try congruence; simpl; now rewrite String.eqb_refl.
  - apply String.eqb_neq in E. rewrite lookup_merge_pair_other by exact E.
    apply IH; [exact Hnd'|].
    destruct Hin as [Hin | Hin]; [|exact Hin]. congruence.
Qed.

(** What an object schema accepted: every declared field validated, and a
    field that validated to a defined value reads as that value on the
    result. *)
Lemma parsed_field (shape : list (string * ZodType)) (uk : UnknownKeys)
    (raw v : JSValue) (k : string) (t : ZodType) :
  parse (ZObject shape uk) raw = Ok v ->
  NoDup (map fst shape) -> In (k, t) shape -> k <> "__proto__" ->
  exists x,
    zparse t (get_prop k (entries raw)) = Valid x
    /\ (x <> JUndefined -> get_prop k (entries v) = x).
Proof.
  unfold parse. intros Hp Hnd Hin Hproto.
  destruct (zparse (ZObject shape uk) raw) as [out|issues] eqn:Hz;
    [|discriminate]. injection Hp as <-.
  destruct raw as [| | b | n | z | s | items | props]; try discriminate Hz.
  rewrite zparse_object in Hz. unfold object_result in Hz.
  destruct (all_valid (parse_fields shape props)) eqn:Hall;
    [|discriminate Hz].
  simpl in Hz.
  match type of Hz with
  | (if ?c then _ else _) = _ => destruct c; [|discriminate Hz]
  end.
  injection Hz as <-.
  assert (Hf : In (k, zparse t (get_prop k props)) (parse_fields shape props)).
  { unfold parse_fields.
    change (k, zparse t (get_prop k props))
      with ((fun kt : string * ZodType =>
               (fst kt, zparse (snd kt) (get_prop (fst kt) props))) (k, t)).
    now apply in_map. }
  unfold all_valid in Hall. rewrite forallb_forall in Hall.
  pose proof (Hall _ Hf) as Hv. simpl in Hv.
  cbn [entries].
  destruct (zparse t (get_prop k props)) as [x|] eqn:Hx; [|discriminate].
  exists x. split; [reflexivity|].
  intros Hdef. unfold get_prop at 1.
  rewrite lookup_merged_field with (r := Valid x); auto.
  now rewrite parse_fields_keys.
Qed.

Lemma request_validated (client : BaseClient) (ep : NotteEndpoint)
    (w w' : World) (v : JSValue) :
  request client ep w = (Ok v, w') ->
  exists raw, parse (responseSchema ep) raw = Ok v.
Proof.
  unfold request. destruct (rawRequest client ep w) as [[raw|e] w1];
    [|discriminate].
  intros H. injection H as H _. now exists raw.
Qed.

Lemma session_response_fields (raw v : JSValue) :
  parse SessionResponseSchema raw = Ok v ->
  exists id st,
    get_prop "session_id" (entries v) = JStr id
    /\ get_prop "status" (entries v) = JStr st
    /\ In st session_statuses.
Proof.
  intros Hp. unfold SessionResponseSchema in Hp.
  assert (Hnd : NoDup (declared SessionResponseSchema))
    by (apply distinct_NoDup; reflexivity).
  destruct (@parsed_field _ _ _ _ "session_id" ZString Hp Hnd)
    as [x [Hx Hgx]];
    [simpl; auto | discriminate |].
  destruct (@parsed_field _ _ _ _ "status" (ZEnum session_statuses) Hp Hnd)
    as [y [Hy Hgy]]; [simpl; auto 10 | discriminate |].
  cbn [zparse] in Hx, Hy.
  destruct (get_prop "session_id" (entries raw)); try discriminate Hx.
  injection Hx as <-.
  destruct (get_prop "status" (entries raw)) as [| | | | | st | |];
    try discriminate Hy.
  destruct (mem st session_statuses) eqn:Hm; [|discriminate Hy].
  injection Hy as <-.
  exists s, st. split; [apply Hgx; discriminate|].
  split; [apply Hgy; discriminate | now apply mem_In].
Qed.

(** X10.  What [start], [stop] and [status] return has been validated:
    the snapshot holds a string [session_id], and a [status] that is one of
    [active], [closed], [error] and [timed_out]. *)
Theorem session_calls_return_validated_snapshots (client : BaseClient)
    (sessionId : string) (params : option JSValue) (w w' : World)
    (v : JSValue) :
  SessionsClient_start client params w = (Ok v, w')
  \/ SessionsClient_stop client sessionId w = (Ok v, w')
  \/ SessionsClient_status client sessionId w = (Ok v, w') ->
  exists id st,
    get_prop "session_id" (entries v) = JStr id
    /\ get_prop "status" (entries v) = JStr st
    /\ In st session_statuses.
Proof.
  unfold SessionsClient_start, SessionsClient_stop, SessionsClient_status.
  intros [H | [H | H]].
  - destruct (parse_or_empty SessionStartRequestSchema params);
      [|discriminate].
    apply request_validated in H. destruct H as [raw H].
    now apply session_response_fields with (raw := raw).
  - apply request_validated in H. destruct H as [raw H].
    now apply session_response_fields with (raw := raw).
  - apply request_validated in H. destruct H as [raw H].
    now apply session_response_fields with (raw := raw).
Qed.

(** A strict object schema accepts an object exactly when its declared
    fields validate and it has no other key. *)
Lemma strict_accepts (shape : list (string * ZodType))
    (props : list (string * JSValue)) :
  is_valid (zparse (ZObject shape Strict) (JObj props))
  = all_valid (parse_fields shape props)
    && forallb (fun k => mem k (map fst shape)) (keys props).
Proof.
  rewrite zparse_object. unfold object_result, extra_keys.
  rewrite parse_fields_keys.
  assert (H : match unrecognized Strict
                      (filter (fun k => negb (mem k (map fst shape))) (keys props))
              with [] => true | _ :: _ => false end
              = forallb (fun k => mem k (map fst shape)) (keys props)).
  { induction (keys props) as [|k ks IH]; simpl; [reflexivity|].
    destruct (mem k (map fst shape)); simpl; [exact IH | reflexivity]. }
  rewrite H.
  destruct (all_valid (parse_fields shape props)
            && forallb (fun k => mem k (map fst shape)) (keys props));
    reflexivity.
Qed.

(** X11.  The exact acceptance rule of the request schemas: a parameter
    object is accepted if and only if each declared field validates on the
    object's value for it (an absent optional field does) and every key of
    the object is declared. *)
Theorem request_schema_acceptance (schema : ZodType)
    (props : list (string * JSValue)) :
  In schema request_schemas ->
  is_ok (parse schema (JObj props))
  = fields_valid schema props
    && forallb (fun k => mem k (declared schema)) (keys props).
Proof.
  intros Hs. destruct (request_schemas_strict Hs) as [shape ->].
  rewrite is_ok_parse. apply strict_accepts.
Qed.

Lemma strip_output_keys (shape : list (string * ZodType))
    (props : list (string * JSValue)) (v : JSValue) :
  zparse (ZObject shape Strip) (JObj props) = Valid v ->
  exists out, v = JObj out /\ forall k, In k (keys out) -> In k (map fst shape).
Proof.
  rewrite zparse_object. unfold object_result. simpl unrecognized.
  simpl passed_through. rewrite andb_true_r, app_nil_r.
  destruct (all_valid (parse_fields shape props)); [|discriminate].
  intros H. injection H as <-. eexists. split; [reflexivity|].
  intros k Hk. apply keys_merged_fields in Hk.
  now rewrite parse_fields_keys in Hk.
Qed.

Lemma proxy_select (props : list (string * JSValue)) :
  zparse ProxySettingsSchema (JObj props)
  = match get_prop "type" props with
    | JStr s =>
        if String.eqb s "notte" then zparse NotteProxySchema (JObj props)
        else if String.eqb s "external"
             then zparse ExternalProxySchema (JObj props)
             else Invalid [at_path (Key "type")
                             (issue "invalid_union_discriminator")]
    | _ => Invalid [at_path (Key "type") (issue "invalid_union_discriminator")]
    end.
Proof.
  unfold ProxySettingsSchema. cbn [zparse].
  destruct (get_prop "type" props); reflexivity.
Qed.

Lemma strip_accepts (shape : list (string * ZodType))
    (props : list (string * JSValue)) :
  is_valid (zparse (ZObject shape Strip) (JObj props))
  = all_valid (parse_fields shape props).
Proof.
  rewrite zparse_object. unfold object_result. simpl unrecognized.
  rewrite andb_true_r.
  now destruct (all_valid (parse_fields shape props)).
Qed.

(** X12.  A proxy entry is validated by the branch its [type] tag names: a
    tag other than ["notte"] and ["external"] is rejected, and so is an
    external proxy without a string [server].  The branches are not strict:
    an entry is accepted exactly when the declared fields of its branch
    validate, whatever other keys it has, and it comes out with keys that
    its branch declares only: any other key is dropped without an error. *)
Theorem proxy_settings_by_tag (props : list (string * JSValue)) :
  (get_prop "type" props <> JStr "notte" ->
   get_prop "type" props <> JStr "external" ->
   is_valid (zparse ProxySettingsSchema (JObj props)) = false)
  /\ (get_prop "type" props = JStr "external" ->
      (forall s, get_prop "server" props <> JStr s) ->
      is_valid (zparse ProxySettingsSchema (JObj props)) = false)
  /\ (forall tag branch,
        In (tag, branch)
           [("notte", NotteProxySchema); ("external", ExternalProxySchema)] ->
        get_prop "type" props = JStr tag ->
        is_valid (zparse ProxySettingsSchema (JObj props))
        = fields_valid branch props
        /\ forall v,
             zparse ProxySettingsSchema (JObj props) = Valid v ->
             exists out,
               v = JObj out
               /\ forall k, In k (keys out) -> In k (declared branch)).
Proof.
  rewrite proxy_select. split; [|split].
  - intros Hn He. destruct (get_prop "type" props); try reflexivity.
    destruct (String.eqb s "notte") eqn:E1;
      [apply String.eqb_eq in E1; congruence|].
    destruct (String.eqb s "external") eqn:E2;
      [apply String.eqb_eq in E2; congruence | reflexivity].
  - intros -> Hserver. simpl String.eqb. cbv iota.
    unfold ExternalProxySchema.
    apply invalid_field with (k := "server") (t := ZString); [simpl; auto|].
    cbn [zparse]. destruct (get_prop "server" props); try reflexivity.
    now elim (Hserver s).
  - intros tag branch Hin ->.
    destruct Hin as [Hin | [Hin | []]]; injection Hin as <- <-;
      simpl String.eqb; cbv iota.
    + unfold NotteProxySchema. rewrite strip_accepts.
      split; [reflexivity|]. intros v Hv. now apply strip_output_keys in Hv.
    + unfold ExternalProxySchema. rewrite strip_accepts.
      split; [reflexivity|]. intros v Hv. now apply strip_output_keys in Hv.
Qed.

(** X13.  A cookie needs string [name], [value], [domain] and [path] and a
    boolean [httpOnly].  The cookie schema is passthrough: a cookie that is
    accepted keeps every other key it came with (with a defined value,
    [__proto__] apart) and that key's value. *)
Theorem cookie_shape (props : list (string * JSValue)) :
  (forall k, In k ["name"; "value"; "domain"; "path"] ->
             (forall s, get_prop k props <> JStr s) ->
             is_ok (parse CookieSchema (JObj props)) = false)
  /\ ((forall b, get_prop "httpOnly" props <> JBool b) ->
      is_ok (parse CookieSchema (JObj props)) = false)
  /\ (forall out,
        parse CookieSchema (JObj props) = Ok out ->
        forall k v,
          lookup k props = Some v -> mem k (declared CookieSchema) = false ->
          v <> JUndefined -> k <> "__proto__" ->
          lookup k (entries out) = Some v).
Proof.
  split; [|split].
  - intros k Hk Hs. rewrite is_ok_parse. unfold CookieSchema.
    apply invalid_field with (k := k) (t := ZString).
    + simpl in Hk.
      repeat (destruct Hk as [<- | Hk]; [simpl; auto 10|]). destruct Hk.
    + cbn [zparse]. destruct (get_prop k props); try reflexivity.
      now elim (Hs s).
  - intros Hb. rewrite is_ok_parse. unfold CookieSchema.
    apply invalid_field with (k := "httpOnly") (t := ZBoolean);
      [simpl; auto 10|].
    cbn [zparse]. destruct (get_prop "httpOnly" props); try reflexivity.
    now elim (Hb b).
  - intros out Hout k v Hk Hnew Hdef Hproto.
    unfold CookieSchema, parse in Hout.
    match type of Hout with
    | context [zparse (ZObject ?sh Passthrough) _] =>
        destruct (passthrough_keeps_unknown sh props) as [Hv Hkeep]
    end.
    match type of Hout with
    | context [zparse ?s ?x] => destruct (zparse s x) as [o|] eqn:Hz
    end; [|discriminate].
    injection Hout as <-. simpl in Hv.
    destruct (Hkeep (eq_sym Hv)) as [o' [Ho' Hkeys]].
    injection Ho' as ->. simpl entries. now apply Hkeys.
Qed.

Lemma parse_items_first_failure (schema : ZodType) (pre post : list JSValue)
    (bad : JSValue) (e : JSError) :
  Forall (fun item => is_ok (parse schema item) = true) pre ->
  parse schema bad = Err e ->
  parse_items schema (pre ++ bad :: post)%list = Err e.
Proof.
  intros Hpre Hbad. induction Hpre as [|item pre Hitem _ IH]; simpl.
  - now rewrite Hbad.
  - destruct (parse schema item); [|discriminate]. now rewrite IH.
Qed.

(** X14.  A list response is all or nothing: when an element fails the
    response schema, [requestList] throws the error of the first such
    element and returns no partial list. *)
Theorem requestList_is_all_or_nothing (client : BaseClient)
    (endpoint : NotteEndpoint) (w w' : World) (pre post : list JSValue)
    (bad : JSValue) (e : JSError) :
  rawRequest client endpoint w = (Ok (JArr (pre ++ bad :: post)%list), w') ->
  Forall (fun item => is_ok (parse (responseSchema endpoint) item) = true) pre ->
  parse (responseSchema endpoint) bad = Err e ->
  requestList client endpoint w = (Err e, w').
Proof.
  intros Hraw Hpre Hbad. unfold requestList. rewrite Hraw. simpl.
  now rewrite (@parse_items_first_failure _ pre post bad e Hpre Hbad).
Qed.

Lemma strip_leading_unslashed (rel : string) :
  starts_with_slash rel = false -> strip_leading_slashes rel = rel.
Proof. destruct rel as [|c rel]; simpl; [reflexivity | now intros ->]. Qed.

Lemma sessions_url (client : BaseClient) (rel : string) :
  baseEndpointPath client = Some "sessions" ->
  starts_with_slash rel = false ->
  buildUrl (serverUrl client) (baseEndpointPath client) rel
  = strip_trailing_slashes (serverUrl client) ++ "/sessions"
    ++ (if truthy rel then "/" ++ rel else "").
Proof.
  intros -> Hrel. unfold buildUrl. rewrite (strip_leading_unslashed _ Hrel).
  change (truthy "sessions") with true. cbv iota.
  change (strip_slashes "sessions") with "sessions".
  destruct (truthy rel); rewrite ?append_assoc; reflexivity.
Qed.

Lemma starts_with_slash_app (id rest : string) :
  id <> "" -> starts_with_slash (id ++ rest) = starts_with_slash id.
Proof. destruct id; [congruence | reflexivity]. Qed.

Lemma truthy_app (id rest : string) : id <> "" -> truthy (id ++ rest) = true.
Proof. destruct id; [congruence | reflexivity]. Qed.

Lemma sessions_build_call (client : BaseClient) (rel : string) (m : Method)
    (schema : ZodType) (body : option JSValue) :
  baseEndpointPath client = Some "sessions" ->
  starts_with_slash rel = false ->
  build_call client (endpoint rel m schema body None)
  = sessions_call client m (if truthy rel then "/" ++ rel else "")
      (if sends_body m then if_truthy body else None).
Proof.
  intros Hb Hrel. unfold build_call, sessions_call. simpl.
  now rewrite (sessions_url client rel Hb Hrel).
Qed.

(** What an object schema returns is an object. *)
Lemma parse_object_output (shape : list (string * ZodType)) (uk : UnknownKeys)
    (raw v : JSValue) :
  parse (ZObject shape uk) raw = Ok v -> exists out, v = JObj out.
Proof.
  unfold parse.
  destruct (zparse (ZObject shape uk) raw) as [o|issues] eqn:Hz;
    [|discriminate].
  intros H. injection H as <-.
  destruct raw as [| | b | n | z | s | items | props]; try discriminate Hz.
  rewrite zparse_object in Hz. unfold object_result in Hz.
  match type of Hz with
  | (if ?c then _ else _) = _ => destruct c; [|discriminate Hz]
  end.
  injection Hz as <-. eexists. reflexivity.
Qed.

Lemma parse_or_empty_output (shape : list (string * ZodType))
    (uk : UnknownKeys) (params : option JSValue) (v : JSValue) :
  parse_or_empty (ZObject shape uk) params = Ok v -> if_truthy (Some v) = Some v.
Proof.
  unfold parse_or_empty. intros H.
  assert (Hobj : exists out, v = JObj out).
  { destruct (if_truthy params) as [p|].
    - now apply parse_object_output in H.
    - injection H as <-. eexists. reflexivity. }
  destruct Hobj as [out ->]. reflexivity.
Qed.

Lemma request_fetches_once (client : BaseClient) (ep : NotteEndpoint)
    (w : World) (call : FetchCall) :
  build_call client ep = call ->
  fetches_once w (request client ep w) call.
Proof.
  intros <- Hurl Hser. now apply request_sends.
Qed.

(** X15.  The request of each operation of the sessions client.  With the
    prefix [sessions] and a session identifier that is not empty and does
    not start with a slash, an operation builds one request, for the URL
    string [<server>/sessions] followed by [/{id}/stop] for [stop] (a
    DELETE), [/{id}] for [status], [/{id}/cookies] for [getCookies] and
    nothing for [list] without filter (GETs), all without body, and by
    [/start] and [/{id}/page/scrape|observe|execute] for [start], [scrape],
    [observe] and [execute], POSTs whose body is the parsed parameters.
    It sets no query parameter and sends the client's headers.  Where
    [new URL] accepts that string and [JSON.stringify] the body, [fetch] is
    called once, for that request. *)
Theorem sessions_requests (client : BaseClient) (id : string) (w : World) :
  baseEndpointPath client = Some "sessions" ->
  id <> "" -> starts_with_slash id = false ->
  fetches_once w (SessionsClient_stop client id w)
    (sessions_call client DELETE ("/" ++ id ++ "/stop") None)
  /\ fetches_once w (SessionsClient_status client id w)
       (sessions_call client GET ("/" ++ id) None)
  /\ fetches_once w (SessionsClient_getCookies client id w)
       (sessions_call client GET ("/" ++ id ++ "/cookies") None)
  /\ fetches_once w (SessionsClient_list client None w)
       (sessions_call client GET "" None)
  /\ (forall params body,
        parse_or_empty SessionStartRequestSchema params = Ok body ->
        fetches_once w (SessionsClient_start client params w)
          (sessions_call client POST "/start" (Some body)))
  /\ (forall params body,
        parse_or_empty ScrapeRequestSchema params = Ok body ->
        fetches_once w (SessionsClient_scrape client id params w)
          (sessions_call client POST ("/" ++ id ++ "/page/scrape") (Some body)))
  /\ (forall params body,
        parse_or_empty ObserveRequestSchema params = Ok body ->
        fetches_once w (SessionsClient_observe client id params w)
          (sessions_call client POST ("/" ++ id ++ "/page/observe") (Some body)))
  /\ (forall action body,
        parse ExecutionRequestSchema action = Ok body ->
        fetches_once w (SessionsClient_execute client id action w)
          (sessions_call client POST ("/" ++ id ++ "/page/execute") (Some body))).
Proof.
  intros Hb Hid Hslash.
  assert (Hrel : forall rest, starts_with_slash (id ++ rest) = false)
    by (intros rest; now rewrite starts_with_slash_app).
  assert (Hcall : forall rest m schema body,
             build_call client (endpoint (id ++ rest) m schema body None)
             = sessions_call client m ("/" ++ id ++ rest)
                 (if sends_body m then if_truthy body else None)).
  { intros rest m schema body.
    rewrite sessions_build_call by auto. now rewrite truthy_app. }
  unfold SessionsClient_stop, SessionsClient_status, SessionsClient_getCookies,
    SessionsClient_list, SessionsClient_start, SessionsClient_scrape,
    SessionsClient_observe, SessionsClient_execute.
  split; [|split; [|split; [|split; [|split; [|split; [|split]]]]]].
  - apply request_fetches_once. now rewrite Hcall.
  - apply request_fetches_once. rewrite <- (append_nil_r id) at 1.
    rewrite Hcall. now rewrite append_nil_r.
  - apply request_fetches_once. now rewrite Hcall.
  - intros Hurl Hser. cbn [if_truthy].
    destruct (fetch_log client (endpoint "" GET SessionResponseSchema None None) w)
      as [_ [_ H]].
    rewrite H. unfold reaches_fetch.
    rewrite sessions_build_call by auto. cbn [truthy sends_body].
    now rewrite Hurl, Hser.
  - intros params body Hp. rewrite Hp. apply request_fetches_once.
    rewrite sessions_build_call by auto. cbn [truthy sends_body].
    unfold SessionStartRequestSchema in Hp.
    now rewrite (parse_or_empty_output _ _ _ Hp).
  - intros params body Hp. rewrite Hp. apply request_fetches_once.
    rewrite Hcall. cbn [sends_body].
    unfold ScrapeRequestSchema in Hp.
    now rewrite (parse_or_empty_output _ _ _ Hp).
  - intros params body Hp. rewrite Hp. apply request_fetches_once.
    rewrite Hcall. cbn [sends_body].
    unfold ObserveRequestSchema in Hp.
    now rewrite (parse_or_empty_output _ _ _ Hp).
  - intros action body Hp. rewrite Hp. apply request_fetches_once.
    rewrite Hcall. cbn [sends_body].
    unfold ExecutionRequestSchema in Hp.
    destruct (parse_object_output _ _ _ Hp) as [out ->]. reflexivity.
Qed.

(* ------------------------------------------------------------------ *)
(** ** Further properties of the lifecycle wrapper *)

(** X16.  Starting is single-shot: once [start()] has succeeded with a
    non-empty identifier, every later [start()], whatever was done with
    the wrapper in between and also after a stop, throws "Session already
    started" without a call to the client and without changing the
    wrapper. *)
Theorem start_is_single_shot (s s1 : RemoteSession) (env env1 : Env)
    (r : SessionResponse) :
  start s env = (Ok r, s1, env1) ->
  session_id r <> "" ->
  forall (T : Type) (work : Work T),
    let s2 := session_after (run_work work s1 env1) in
    let env2 := env_after (run_work work s1 env1) in
    start s2 env2 = (Err (Error "Session already started"), s2, env2).
Proof.
  intros Hstart Hne T work s2 env2.
  assert (Hid : _sessionId s1 = Some (session_id r)).
  { unfold start, logged in Hstart.
    split_match; try discriminate; reflexivity. }
  assert (Hid2 : _sessionId s2 = Some (session_id r))
    by (subst s2; now apply run_work_keeps_id).
  unfold start. now rewrite (has_id_truthy s2 Hid2 Hne).
Qed.

(** X17.  A wrapper without identifier refuses every operation that needs
    one before any I/O: the getter and the page and cookie operations throw
    the "not been started" error of the getter, [stop()] throws its own,
    and the wrapper, the recorded calls and the state behind the client
    are unchanged. *)
Theorem unstarted_wrapper_refuses (op : SessionOp) (s : RemoteSession)
    (env : Env) :
  has_id s = false -> _stopped s = false -> needs_id op = true ->
  run_op op s env
  = (Err (match op with
          | DoStop => Error "Session has not been started"
          | _ => not_started_error
          end), s, env).
Proof.
  intros Hid Hst Hop.
  assert (Hget : sessionId s = Err not_started_error).
  { unfold sessionId, has_id in *. destruct (_sessionId s) as [id|];
      [now rewrite Hid | reflexivity]. }
  destruct op; try discriminate Hop; run_wrapper; rewrite ?Hget, ?Hst;
    try reflexivity.
  unfold has_id in Hid. destruct (_sessionId s) as [id|]; [|reflexivity].
  now rewrite Hid.
Qed.

(** X18.  A page or cookie operation on a wrapper that holds a non-empty
    identifier forwards exactly one call, with that identifier, and leaves
    the wrapper as it is: the cached response is not refreshed, and a
    stopped wrapper forwards all the same. *)
Theorem page_operations_forward_one_call (op : SessionOp) (s : RemoteSession)
    (env : Env) (id : string) (c : ClientCall) :
  _sessionId s = Some id -> id <> "" -> forwarded op id = Some c ->
  session_after (run_op op s env) = s
  /\ calls (env_after (run_op op s env)) = (calls env ++ [c])%list
  /\ call_session c = Some id.
Proof.
  intros Hid Hne Hc. pose proof (sessionId_of_id s Hid Hne) as Hget.
  unfold session_after, env_after.
  destruct op; try discriminate Hc; injection Hc as <-; run_wrapper;
    rewrite Hget; simpl; split_match; simpl; auto.
Qed.

(** X19.  The dispose hook never throws the caller-misuse error: on a
    wrapper without identifier, or already stopped, it returns without a
    call.  Otherwise it is [stop()]: it issues one stop request, and when
    it returns the wrapper is stopped, so disposing again does nothing. *)
Theorem asyncDispose_stops_once (s : RemoteSession) (env : Env) :
  (has_id s = false \/ _stopped s = true ->
   asyncDispose s env = (Ok tt, s, env))
  /\ (has_id s = true -> _stopped s = false ->
      stop_calls (env_after (asyncDispose s env)) = S (stop_calls env)
      /\ session_after (asyncDispose s env) = session_after (stop s env)
      /\ env_after (asyncDispose s env) = env_after (stop s env)
      /\ (outcome (asyncDispose s env) = Ok tt ->
          _stopped (session_after (asyncDispose s env)) = true
          /\ forall env',
               asyncDispose (session_after (asyncDispose s env)) env'
               = (Ok tt, session_after (asyncDispose s env), env'))).
Proof.
  split.
  - intros [H | H]; unfold asyncDispose; rewrite H; simpl;
      [reflexivity | now rewrite andb_false_r].
  - intros Hid Hst. unfold asyncDispose, outcome, session_after, env_after.
    rewrite Hid, Hst. simpl. unfold stop, logged. rewrite Hst.
    unfold has_id in Hid. destruct (_sessionId s) as [id|]; [|discriminate].
    rewrite Hid.
    destruct (client_stop id (server env)) as [[r|e] sv]; simpl;
      rewrite stop_calls_logged; simpl; repeat split; try discriminate.
    intros env'. unfold asyncDispose. simpl. now rewrite andb_false_r.
Qed.

Lemma use_unfolded (T : Type) (opts : JSValue) (fn : Work T) (env : Env)
    (r0 : SessionResponse) (sv0 : Server) :
  client_start opts (server env) = (Ok r0, sv0) ->
  let ran := run_work fn (started opts r0)
               {| calls := (calls env ++ [CallStart opts])%list; server := sv0 |} in
  use opts fn env
  = match stop (session_after ran) (env_after ran) with
    | (Err e, s3, env3) => (Err e, s3, env3)
    | (Ok _, s3, env3) => (outcome ran, s3, env3)
    end.
Proof.
  intros Hstart ran. subst ran. unfold use, start, logged. simpl.
  rewrite Hstart. fold (started opts r0).
  destruct (run_work fn (started opts r0)
              {| calls := (calls env ++ [CallStart opts])%list; server := sv0 |})
    as [[c s2] env2].
  reflexivity.
Qed.

(** X20.  When the start call rejects, [RemoteSession.use] rejects with
    that error: the work function is not run and no stop request is made;
    the only call recorded is the start. *)
Theorem use_does_nothing_when_start_fails (T : Type) (opts : JSValue)
    (fn : Work T) (env : Env) (e : JSError) (sv : Server) :
  client_start opts (server env) = (Err e, sv) ->
  use opts fn env
  = (Err e, new_RemoteSession opts,
     {| calls := (calls env ++ [CallStart opts])%list; server := sv |})
  /\ stop_calls (env_after (use opts fn env)) = stop_calls env.
Proof.
  intros Hfail.
  assert (H : use opts fn env
              = (Err e, new_RemoteSession opts,
                 {| calls := (calls env ++ [CallStart opts])%list;
                    server := sv |})).
  { unfold use, start, logged. simpl. now rewrite Hfail. }
  rewrite H. split; [reflexivity|].
  unfold env_after. simpl. now rewrite stop_calls_logged.
Qed.

(** X21.  The [finally] block of [RemoteSession.use] has the last word:
    when the work function has not stopped the session and the stop
    request rejects, [use] rejects with the error of the stop, whether the
    work had returned a value or thrown. *)
Theorem use_reports_a_failed_stop (T : Type) (opts : JSValue) (fn : Work T)
    (env : Env) (r0 : SessionResponse) (sv0 sv' : Server) (e' : JSError) :
  client_start opts (server env) = (Ok r0, sv0) ->
  session_id r0 <> "" ->
  never_stops fn ->
  let ran := run_work fn (started opts r0)
               {| calls := (calls env ++ [CallStart opts])%list; server := sv0 |} in
  client_stop (session_id r0) (server (env_after ran)) = (Err e', sv') ->
  outcome (use opts fn env) = Err e'.
Proof.
  intros Hstart Hne Hns ran Hstop.
  assert (Hinv : _sessionId (session_after ran) = Some (session_id r0)
                 /\ _stopped (session_after ran) = false
                 /\ stop_calls (env_after ran) = stop_calls env).
  { apply run_work_preserves
      with (allowed := fun op => negb (stops op))
           (P := fun s e => _sessionId s = Some (session_id r0)
                            /\ _stopped s = false
                            /\ stop_calls e = stop_calls env); auto.
    - intros op s0 env0 Hop H. now apply run_op_never_stops.
    - repeat split. now rewrite stop_calls_logged. }
  destruct Hinv as [Hid [Hst _]].
  rewrite use_unfolded with (r0 := r0) (sv0 := sv0) by exact Hstart.
  fold ran.
  unfold stop, logged. rewrite Hst, Hid.
  destruct (session_id r0) as [|ch rest] eqn:Eid; [congruence|].
  simpl truthy. cbv iota. rewrite Hstop. reflexivity.
Qed.

Lemma run_op_carries_id (id : string) (base : list ClientCall)
    (op : SessionOp) (s : RemoteSession) (env : Env) :
  id <> "" -> on_wrapper op = true ->
  _sessionId s = Some id
  /\ (exists new, calls env = (base ++ new)%list
                  /\ Forall (fun c => call_session c = Some id) new) ->
  _sessionId (session_after (run_op op s env)) = Some id
  /\ (exists new,
         calls (env_after (run_op op s env)) = (base ++ new)%list
         /\ Forall (fun c => call_session c = Some id) new).
Proof.
  intros Hne Hop [Hid Hex].
  pose proof (has_id_truthy s Hid Hne) as Hh.
  pose proof (sessionId_of_id s Hid Hne) as Hget.
  assert (Hlog : forall c,
             call_session c = Some id ->
             exists new, (calls env ++ [c])%list = (base ++ new)%list
                         /\ Forall (fun c0 => call_session c0 = Some id) new).
  { intros c Hc. destruct Hex as [new [Hcalls Hall]].
    exists (new ++ [c])%list. rewrite Hcalls, app_assoc. split; [reflexivity|].
    apply Forall_app. split; [exact Hall | now constructor]. }
  unfold session_after, env_after.
  destruct op; try discriminate Hop; run_wrapper;
    rewrite ?Hh, ?Hget; simpl; auto;
    unfold has_id; rewrite ?Hid; simpl;
    split_match; simpl;
    (split; [first [assumption | reflexivity | congruence]
            | first [exact Hex | apply Hlog; reflexivity | congruence]]).
Qed.

(** X22.  Every call that reaches the client through a wrapper holding a
    non-empty identifier is about that session: whatever is done with the
    wrapper, the calls it adds to the record all carry the identifier it
    holds; none is a start, and none names another or an empty id. *)
Theorem wrapper_calls_carry_its_identifier (T : Type) (work : Work T)
    (s : RemoteSession) (env : Env) (id : string) :
  _sessionId s = Some id -> id <> "" ->
  only_uses on_wrapper work ->
  exists new,
    calls (env_after (run_work work s env)) = (calls env ++ new)%list
    /\ Forall (fun c => call_session c = Some id) new.
Proof.
  intros Hid Hne Hw.
  apply (@run_work_preserves on_wrapper
           (fun s0 e => _sessionId s0 = Some id
                        /\ exists new, calls e = (calls env ++ new)%list
                             /\ Forall (fun c => call_session c = Some id) new)).
  - intros op s0 env0 Hop H. now apply run_op_carries_id.
  - exact Hw.
  - split; [exact Hid|]. exists []. now rewrite app_nil_r.
Qed.

Lemma run_op_frame (op : SessionOp) (s : RemoteSession) (env : Env) :
  changes_wrapper op = false -> session_after (run_op op s env) = s.
Proof.
  intros Hop. unfold session_after.
  destruct op; try discriminate Hop; run_wrapper; split_match; reflexivity.
Qed.

Lemma start_advances (s : RemoteSession) (env : Env) :
  let s' := session_after (start s env) in
  options s' = options s
  /\ (isStarted s = true -> isStarted s' = true)
  /\ (_stopped s = true -> _stopped s' = true).
Proof.
  unfold session_after, start, logged.
  destruct (has_id s) eqn:Hid; simpl; [auto|].
  destruct (client_start (options s) (server env)) as [[r|e] sv]; simpl; auto.
Qed.

Lemma stop_advances (s : RemoteSession) (env : Env) :
  let s' := session_after (stop s env) in
  options s' = options s
  /\ (isStarted s = true -> isStarted s' = true)
  /\ (_stopped s = true -> _stopped s' = true).
Proof.
  unfold session_after, stop, logged, isStarted.
  destruct (_stopped s) eqn:Hst; simpl; [auto|].
  destruct (_sessionId s) as [id|] eqn:Hid; simpl;
    [|rewrite Hid; repeat split; auto; discriminate].
  destruct (truthy id); simpl;
    [|rewrite Hid; repeat split; auto; discriminate].
  destruct (client_stop id (server env)) as [[r|e] sv]; simpl;
    rewrite ?Hid; repeat split; auto; discriminate.
Qed.

Lemma run_op_advances (op : SessionOp) (s : RemoteSession) (env : Env) :
  let s' := session_after (run_op op s env) in
  options s' = options s
  /\ (isStarted s = true -> isStarted s' = true)
  /\ (_stopped s = true -> _stopped s' = true).
Proof.
  destruct (changes_wrapper op) eqn:Hop.
  - pose proof (start_advances s env) as Hstart.
    pose proof (stop_advances s env) as Hstop.
    unfold session_after in *.
    destruct op; try discriminate Hop; simpl.
    + unfold returning. destruct (start s env) as [[[r|e] s1] env1]; exact Hstart.
    + unfold returning. destruct (stop s env) as [[[r|e] s1] env1]; exact Hstop.
    + unfold returning, asyncDispose.
      destruct (has_id s && negb (_stopped s)); simpl; [|auto].
      destruct (stop s env) as [[[r|e] s1] env1]; exact Hstop.
  - simpl. rewrite run_op_frame by exact Hop. auto.
Qed.

(** X23.  The lifecycle only moves forward.  An operation other than
    [start()], [stop()] and the dispose hook leaves the wrapper as it is;
    and whatever code runs, the start options are kept, a wrapper that has
    an identifier keeps having one, and a stopped wrapper stays stopped. *)
Theorem lifecycle_moves_forward :
  (forall op s env,
      changes_wrapper op = false -> session_after (run_op op s env) = s)
  /\ (forall (T : Type) (work : Work T) s env,
        let s' := session_after (run_work work s env) in
        options s' = options s
        /\ (isStarted s = true -> isStarted s' = true)
        /\ (_stopped s = true -> _stopped s' = true)).
Proof.
  split; [intros op s env Hop; now apply run_op_frame|].
  intros T work s env s'. subst s'.
  apply (@run_work_preserves (fun _ => true)
           (fun s0 _ => options s0 = options s
                        /\ (isStarted s = true -> isStarted s0 = true)
                        /\ (_stopped s = true -> _stopped s0 = true)));
    [| apply only_uses_any | auto].
  intros op s0 env0 _ [Ho [Hs Hst]].
  destruct (run_op_advances op s0 env0) as [Ho' [Hs' Hst']].
  split; [congruence|]. split; auto.
Qed.

Lemma start_well_formed (s : RemoteSession) (env : Env) :
  well_formed s -> well_formed (session_after (start s env)).
Proof.
  unfold session_after, start, logged. intros Hwf.
  destruct (has_id s) eqn:Hid; simpl; [exact Hwf|].
  destruct (client_start (options s) (server env)) as [[r|e] sv]; simpl;
    [|exact Hwf].
  destruct Hwf as [Hs Hr]. unfold well_formed, isStarted. simpl. split.
  - intros Hst. destruct (Hs Hst) as [H _]. congruence.
  - reflexivity.
Qed.

Lemma stop_well_formed (s : RemoteSession) (env : Env) :
  well_formed s -> well_formed (session_after (stop s env)).
Proof.
  unfold session_after, stop, logged. intros Hwf.
  destruct (_stopped s) eqn:Hst; simpl; [exact Hwf|].
  destruct (_sessionId s) as [id|] eqn:Hid; simpl; [|exact Hwf].
  destruct (truthy id) eqn:Ht; simpl; [|exact Hwf].
  destruct (client_stop id (server env)) as [[r|e] sv]; simpl; [|exact Hwf].
  unfold well_formed, has_id, isStarted. simpl. rewrite ?Hid, ?Ht.
  split; [split; [reflexivity | discriminate] | reflexivity].
Qed.

Lemma run_op_well_formed (op : SessionOp) (s : RemoteSession) (env : Env) :
  well_formed s -> well_formed (session_after (run_op op s env)).
Proof.
  intros Hwf.
  destruct (changes_wrapper op) eqn:Hop;
    [|now rewrite run_op_frame by exact Hop].
  pose proof (start_well_formed env Hwf) as Hstart.
  pose proof (stop_well_formed env Hwf) as Hstop.
  unfold session_after in *.
  destruct op; try discriminate Hop; simpl; unfold returning.
  - destruct (start s env) as [[[r|e] s1] env1]; exact Hstart.
  - destruct (stop s env) as [[[r|e] s1] env1]; exact Hstop.
  - unfold asyncDispose.
    destruct (has_id s && negb (_stopped s)); simpl; [|exact Hwf].
    destruct (stop s env) as [[[r|e] s1] env1]; exact Hstop.
Qed.

(** X24.  The cached branch of [stop()] is safe: on a wrapper made by the
    constructor or by [fromId] and used in any way through its public
    members, a [stop()] that returns never returns [null], and a stopped
    wrapper always holds an identifier. *)
Theorem stop_never_returns_null (T : Type) (work : Work T)
    (s0 : RemoteSession) (env : Env) :
  (exists opts, s0 = new_RemoteSession opts) \/ (exists id, s0 = fromId id) ->
  let s := session_after (run_work work s0 env) in
  let env' := env_after (run_work work s0 env) in
  (forall r, outcome (stop s env') = Ok r -> r <> None)
  /\ (isStopped s = true -> is_ok (sessionId s) = true).
Proof.
  intros Hmade s env'.
  assert (Hwf : well_formed s).
  { subst s.
    apply (@run_work_preserves (fun _ => true) (fun s1 _ => well_formed s1));
      [| apply only_uses_any |].
    - intros op s1 env1 _ H. now apply run_op_well_formed.
    - destruct Hmade as [[opts ->] | [id ->]]; unfold well_formed; simpl;
        split; intros H; solve [discriminate | congruence | reflexivity]. }
  destruct Hwf as [Hs Hr]. split.
  - intros r. unfold outcome, stop, logged.
    destruct (_stopped s) eqn:Hst.
    + simpl. intros H. injection H as <-. now apply Hs.
    + split_match; simpl; intros H; try discriminate H.
      injection H as <-. discriminate.
  - unfold isStopped. intros Hst. destruct (Hs Hst) as [Hid _].
    unfold has_id, sessionId in *. destruct (_sessionId s); [|discriminate].
    now rewrite Hid.
Qed.

(** X25.  [request] returns a value only when the server answered with a
    success status and a JSON body that the response schema accepts: then
    the value is the parsed body.  In every other case it throws. *)
Theorem request_returns_validated_json (client : BaseClient)
    (endpoint : NotteEndpoint) (w w' : World) (v : JSValue) :
  request client endpoint w = (Ok v, w') ->
  URL_valid (fc_url (build_call client endpoint)) = true
  /\ exists r raw,
       network (fetched w) (build_call client endpoint) = Responds r
       /\ ok r = true
       /\ json r = Ok raw
       /\ parse (responseSchema endpoint) raw = Ok v.
Proof.
  unfold request.
  destruct (URL_valid (fc_url (build_call client endpoint))) eqn:Hurl;
    [|unfold rawRequest; rewrite Hurl; simpl; discriminate].
  destruct (stringify_error (fc_body (build_call client endpoint)))
    as [bad|] eqn:Hser;
    [now rewrite (@rawRequest_unserialisable client endpoint w bad Hurl Hser)|].
  destruct (network (fetched w) (build_call client endpoint))
    as [r | | err] eqn:Hnet.
  - rewrite (@rawRequest_responds client endpoint w r Hurl Hser Hnet).
    destruct (ok r) eqn:Hok; simpl.
    + destruct (json r) as [raw|e] eqn:Hj; [|discriminate].
      intros H. injection H as H _. split; [reflexivity|].
      exists r, raw. auto.
    + destruct (error_body r); discriminate.
  - unfold rawRequest, fetch, setTimeout. rewrite Hurl. cbn [negb].
    rewrite Hser. simpl. rewrite Hnet. simpl. discriminate.
  - unfold rawRequest, fetch, setTimeout. rewrite Hurl. cbn [negb].
    rewrite Hser. simpl. rewrite Hnet.
    destruct (is_abort_error err); discriminate.
Qed.

End SDK.

Arguments Ok {number A} a.
Arguments Err {number A} e.
Arguments Raise {number} T e.

(* ================================================================== *)
(** * Part III: the model on concrete inputs *)
(* ================================================================== *)

Lemma buildUrl_one_slash_between_segments_witness :
  only_slashes "sessions" = false
  /\ buildUrl "https://api.notte.cc//" (Some "sessions") "/start"
     = "https://api.notte.cc/sessions/start"
  /\ exists s p e i j k l,
    "https://api.notte.cc//" = s ++ slashes i /\ ends_with_slash s = false
    /\ "sessions" = slashes j ++ p ++ slashes k
    /\ starts_with_slash p = false /\ ends_with_slash p = false /\ p <> ""
    /\ "/start" = slashes l ++ e /\ starts_with_slash e = false
    /\ buildUrl "https://api.notte.cc//" (Some "sessions") "/start"
       = (if truthy e then s ++ "/" ++ p ++ "/" ++ e else s ++ "/" ++ p)
    /\ buildUrl "https://api.notte.cc//" (Some "sessions") "" = s ++ "/" ++ p
    /\ ends_with_slash (buildUrl "https://api.notte.cc//" (Some "sessions") "")
       = false.
Proof.
  split; [reflexivity | split; [reflexivity |]].
  apply (buildUrl_one_slash_between_segments
           "https://api.notte.cc//" "sessions" "/start").
  reflexivity.
Defined.

(** ** Concrete clients, servers and transports *)

(** The session snapshots of the SDK's tests. *)
Definition MOCK_SESSION_RESPONSE : @JSValue Z :=
  JObj [ ("session_id", JStr "sess-456");
         ("idle_timeout_minutes", JNum 3%Z);
         ("max_duration_minutes", JNum 15%Z);
         ("created_at", JStr "2024-01-01T00:00:00Z");
         ("last_accessed_at", JStr "2024-01-01T00:00:00Z");
         ("status", JStr "active") ].

Definition MOCK_STOPPED_RESPONSE : @JSValue Z :=
  JObj [ ("session_id", JStr "sess-456");
         ("idle_timeout_minutes", JNum 3%Z);
         ("max_duration_minutes", JNum 15%Z);
         ("created_at", JStr "2024-01-01T00:00:00Z");
         ("last_accessed_at", JStr "2024-01-01T00:00:00Z");
         ("status", JStr "closed") ].

Definition active_response : @SessionResponse Z :=
  {| session_id := "sess-456"; snapshot := MOCK_SESSION_RESPONSE |}.

Definition closed_response : @SessionResponse Z :=
  {| session_id := "sess-456"; snapshot := MOCK_STOPPED_RESPONSE |}.

Definition nameless_response : @SessionResponse Z :=
  {| session_id := ""; snapshot := JObj [("session_id", JStr "")] |}.

(** A scripted domain client: its state counts the calls answered so far,
    and the answers to [start] and [stop] may depend on it. *)
Definition scripted (on_start on_stop : nat -> result (@SessionResponse Z))
    : @SessionsClient Z nat :=
  {| client_start := fun _ n => (on_start n, S n);
     client_stop := fun _ n => (on_stop n, S n);
     client_status := fun _ n => (Ok active_response, S n);
     client_scrape := fun _ _ n =>
       (Ok (JObj [("session", MOCK_SESSION_RESPONSE); ("markdown", JStr "# Hi")]),
        S n);
     client_observe := fun _ _ n =>
       (Ok (JObj [("session", MOCK_SESSION_RESPONSE); ("metadata", JObj [])]), S n);
     client_execute := fun _ _ n =>
       (Ok (JObj [("session", MOCK_SESSION_RESPONSE); ("success", JBool true);
                  ("message", JStr "ok")]), S n);
     client_setCookies := fun _ _ n =>
       (Ok (JObj [("success", JBool true); ("message", JStr "Cookies set")]), S n);
     client_getCookies := fun _ n => (Ok (JObj [("cookies", JArr [])]), S n) |}.

(** Every call succeeds. *)
Definition healthy : @SessionsClient Z nat :=
  scripted (fun _ => Ok active_response) (fun _ => Ok closed_response).

(** The stop call rejects. *)
Definition stop_fails : @SessionsClient Z nat :=
  scripted (fun _ => Ok active_response) (fun _ => Err (Error "stop failed")).

(** The server answers [start] with an empty identifier. *)
Definition nameless : @SessionsClient Z nat :=
  scripted (fun _ => Ok nameless_response) (fun _ => Ok closed_response).

(** The first call rejects, the later ones succeed. *)
Definition flaky : @SessionsClient Z nat :=
  scripted (fun n => match n with
                     | O => Err (Error "fetch failed")
                     | S _ => Ok active_response
                     end)
           (fun _ => Ok closed_response).

Definition env0 : @Env Z nat := {| calls := []; server := O |}.

(** The base client of the tests, as [SessionsClient] configures it. *)
Definition test_client : @BaseClient Z :=
  {| apiKey := "test-key"; serverUrl := "https://api.notte.cc";
     timeoutMs := 60000%Z; baseEndpointPath := Some "sessions" |}.

Definition world0 : @World Z :=
  {| timers := []; next_timer := O; fetched := [] |}.

(** A transport that gives every call the same outcome. *)
Definition always (o : @FetchOutcome Z)
    : list (@FetchCall Z) -> @FetchCall Z -> @FetchOutcome Z :=
  fun _ _ => o.

Definition any_url (_ : string) : bool := true.

Definition json_response (st : Z) (v : @JSValue Z) : @Response Z :=
  {| ok := ((200 <=? st) && (st <=? 299))%Z; status := st;
     body := JSONBody v |}.

(** A response whose body is plain text, not JSON: [new Response("Service
    Unavailable", { status: 503 })]. *)
Definition text_response (st : Z) : @Response Z :=
  {| ok := ((200 <=? st) && (st <=? 299))%Z; status := st;
     body := OtherBody (SyntaxError "Unexpected token 'S', is not valid JSON") |}.

(** A response without a body: [new Response(null, { status: 304 })]. *)
Definition empty_response (st : Z) : @Response Z :=
  {| ok := ((200 <=? st) && (st <=? 299))%Z; status := st; body := NoBody |}.

Definition not_found : @Response Z :=
  json_response 404 (JObj [("detail", JStr "Not found")]).

Definition get_missing : @NotteEndpoint Z :=
  endpoint "missing" GET (ZObject [] Strip) None None.

Definition list_sessions : @NotteEndpoint Z :=
  endpoint "" GET SessionResponseSchema None None.

(** ** C1 on the healthy client: start, stop, stop *)

Definition started_session : @RemoteSession Z := started (JObj []) active_response.

Definition stopped_session : @RemoteSession Z :=
  {| options := JObj []; _sessionId := Some "sess-456";
     _response := Some closed_response; _stopped := true |}.

Lemma stop_is_idempotent_witness :
  _stopped started_session = false
  /\ stop (the_client := healthy) started_session env0
     = (Ok (Some closed_response), stopped_session,
        {| calls := [CallStop "sess-456"]; server := 1 |})
  /\ stop (the_client := healthy) stopped_session
       {| calls := [CallStop "sess-456"]; server := 1 |}
     = (Ok (Some closed_response), stopped_session,
        {| calls := [CallStop "sess-456"]; server := 1 |})
  /\ stop_calls {| calls := [@CallStop Z "sess-456"]; server := 1 |} = 1.
Proof.
  split; [reflexivity|]. split; [reflexivity|].
  destruct (stop_is_idempotent (the_client := healthy) started_session env0
              eq_refl eq_refl) as [_ [Hn [Hagain _]]].
  split; [exact Hagain | exact Hn].
Defined.

(** ** C2: the guarded-use helper *)

(** A work function that scrapes and then throws. *)
Definition scrape_then_boom : @Work Z nat :=
  Do (DoScrape None) (fun _ => Raise nat (Error "boom")).

Lemma use_stops_once_and_keeps_the_error_witness :
  client_start (SessionsClient := healthy) (JObj []) (server env0)
  = (Ok active_response, 1)
  /\ session_id active_response <> ""
  /\ never_stops scrape_then_boom
  /\ outcome (use (the_client := healthy) (JObj []) scrape_then_boom env0)
     = Err (Error "boom")
  /\ stop_calls (env_after (use (the_client := healthy) (JObj [])
                              scrape_then_boom env0)) = 1.
Proof.
  assert (Hstart : client_start (SessionsClient := healthy) (JObj [])
                     (server env0) = (Ok active_response, 1)) by reflexivity.
  assert (Hid : session_id active_response <> "") by discriminate.
  assert (Hwork : never_stops scrape_then_boom).
  { constructor; [reflexivity | intros r; constructor]. }
  destruct (use_stops_once_and_keeps_the_error (the_client := healthy)
              (JObj []) env0 Hstart Hid Hwork) as [Hn Hsame].
  split; [exact Hstart|]. split; [exact Hid|]. split; [exact Hwork|].
  split; [|exact Hn].
  exact (proj2 (Hsame eq_refl) (Error "boom") eq_refl).
Defined.

(** The work throws "boom"; the stop call of the [finally] block rejects;
    what the caller of [use] observes is the stop error. *)
Lemma use_observes_the_stop_error :
  outcome (run_work (the_client := stop_fails) (Raise nat (Error "boom"))
             (started (JObj []) active_response)
             {| calls := [CallStart (JObj [])]; server := 1 |})
  = Err (Error "boom")
  /\ outcome (use (the_client := stop_fails) (JObj [])
                (Raise nat (Error "boom")) env0)
     = Err (Error "stop failed")
  /\ calls (env_after (use (the_client := stop_fails) (JObj [])
                         (Raise nat (Error "boom")) env0))
     = [CallStart (JObj []); CallStop "sess-456"].
Proof. repeat split. Qed.

(** ** C4: the session identifier *)

Lemma session_id_is_stable_witness :
  sessionId (new_RemoteSession (@JObj Z [])) = Err not_started_error
  /\ start (the_client := healthy) (new_RemoteSession (JObj [])) env0
     = (Ok active_response, started_session,
        {| calls := [CallStart (JObj [])]; server := 1 |})
  /\ sessionId started_session = Ok "sess-456"
  /\ sessionId (session_after
                  (run_work (the_client := healthy) scrape_then_boom
                     started_session
                     {| calls := [CallStart (JObj [])]; server := 1 |}))
     = Ok "sess-456"
  /\ sessionId (@fromId Z "existing-123") = Ok "existing-123"
  /\ sessionId (@fromId Z "") = Err not_started_error
  /\ sessionId (session_after
                  (run_work (the_client := healthy) scrape_then_boom
                     (fromId "existing-123") env0))
     = Ok "existing-123".
Proof.
  destruct (session_id_is_stable (number := Z) (Server := nat)
              (the_client := healthy)) as [Hnew [Hfrom [Hkept [_ Hafter]]]].
  split; [apply Hnew|]. split; [reflexivity|].
  assert (Hne : session_id active_response <> "") by discriminate.
  destruct (Hafter (new_RemoteSession (JObj [])) env0 active_response
              started_session {| calls := [CallStart (JObj [])]; server := 1 |}
              eq_refl Hne) as [Hread Hlater].
  split; [exact Hread|]. split; [exact (Hlater nat scrape_then_boom)|].
  split; [exact (Hfrom "existing-123")|]. split; [exact (Hfrom "")|].
  apply (Hkept "existing-123" env0 nat scrape_then_boom). discriminate.
Defined.

(** A wrapper attached by [fromId] yields its identifier though [start()]
    never ran; and a [start()] that succeeds with an empty identifier
    leaves the getter throwing. *)
Lemma session_id_without_start_and_after_it :
  sessionId (@fromId Z "existing-123") = Ok "existing-123"
  /\ outcome (start (the_client := nameless) (new_RemoteSession (JObj [])) env0)
     = Ok nameless_response
  /\ sessionId (session_after
                  (start (the_client := nameless) (new_RemoteSession (JObj []))
                     env0))
     = Err not_started_error.
Proof. repeat split. Qed.

(** ** C10: a start that fails *)

Lemma failed_start_changes_nothing_witness :
  client_start (SessionsClient := flaky) (JObj []) (server env0)
  = (Err (Error "fetch failed"), 1)
  /\ start (the_client := flaky) (new_RemoteSession (JObj [])) env0
     = (Err (Error "fetch failed"), new_RemoteSession (JObj []),
        {| calls := [CallStart (JObj [])]; server := 1 |})
  /\ start (the_client := flaky) (new_RemoteSession (JObj []))
       {| calls := [CallStart (JObj [])]; server := 1 |}
     = (Ok active_response, started_session,
        {| calls := [CallStart (JObj []); CallStart (JObj [])]; server := 2 |}).
Proof.
  assert (Hfail : client_start (SessionsClient := flaky) (JObj []) (server env0)
                  = (Err (Error "fetch failed"), 1)) by reflexivity.
  destruct (failed_start_changes_nothing (the_client := flaky) (JObj []) env0
              Hfail) as [Hstart [_ [_ [_ Hretry]]]].
  split; [exact Hfail|]. split; [exact Hstart|].
  exact (Hretry active_response 2 eq_refl).
Defined.

(** ** C5: list responses *)

Lemma requestList_shapes_witness :
  rawRequest "test" (always (Responds (json_response 200
       (JObj [("items", JArr [MOCK_SESSION_RESPONSE; MOCK_STOPPED_RESPONSE]);
              ("page", JNum 1%Z)]))))
    any_url test_client list_sessions world0
  = (Ok (JObj [("items", JArr [MOCK_SESSION_RESPONSE; MOCK_STOPPED_RESPONSE]);
               ("page", JNum 1%Z)]),
     {| timers := []; next_timer := 1;
        fetched := [build_call "test" test_client list_sessions] |})
  /\ fst (requestList "test" (always (Responds (json_response 200
       (JObj [("items", JArr [MOCK_SESSION_RESPONSE; MOCK_STOPPED_RESPONSE]);
              ("page", JNum 1%Z)]))))
       any_url test_client list_sessions world0)
     = Ok [MOCK_SESSION_RESPONSE; MOCK_STOPPED_RESPONSE].
Proof.
  split; [reflexivity|].
  destruct (requestList_shapes "test"
              (always (Responds (json_response 200
                 (JObj [("items", JArr [MOCK_SESSION_RESPONSE; MOCK_STOPPED_RESPONSE]);
                        ("page", JNum 1%Z)]))))
              any_url test_client list_sessions world0 eq_refl) as [Hlist _].
  destruct (Hlist [MOCK_SESSION_RESPONSE; MOCK_STOPPED_RESPONSE]) as [Heq _].
  - right. eexists. split; reflexivity.
  - rewrite Heq. reflexivity.
Defined.

(** ** C6: unknown keys *)

Lemma unknown_key_policies_witness :
  (exists issues,
      parse SessionStartRequestSchema (@JObj Z [("unknown_field", JBool true)])
      = Err (ZodError issues))
  /\ exists out,
       parse SessionResponseSchema
         (JObj (entries MOCK_SESSION_RESPONSE
                ++ [("some_future_field", JStr "value")])%list)
       = Ok (JObj out)
       /\ lookup "some_future_field" out = Some (JStr "value").
Proof.
  destruct (unknown_key_policies (number := Z)) as [Hstrict Hpass].
  split.
  - apply (Hstrict SessionStartRequestSchema [("unknown_field", JBool true)]
             "unknown_field" (JBool true)); [left|..]; reflexivity.
  - destruct (Hpass SessionResponseSchema
                (entries MOCK_SESSION_RESPONSE
                 ++ [("some_future_field", JStr "value")])%list) as [_ Hkeep].
    + left. reflexivity.
    + destruct (Hkeep eq_refl) as [out [Hout Hkeys]].
      exists out. split; [exact Hout|].
      apply Hkeys; [reflexivity | reflexivity | discriminate | discriminate].
Defined.

(** A valid session response that has, beyond its declared fields, a
    property of its own named [__proto__] (as [JSON.parse] creates it): the
    passthrough schema accepts it, and the parsed result does not have the
    key. *)
Lemma passthrough_drops_the_proto_key :
  mem "__proto__" (declared SessionResponseSchema) = false
  /\ lookup "__proto__"
       (entries MOCK_SESSION_RESPONSE
        ++ [("__proto__", JObj [("admin", JBool true)])])%list
     = Some (JObj [("admin", JBool true)])
  /\ parse SessionResponseSchema
       (JObj (entries MOCK_SESSION_RESPONSE
              ++ [("__proto__", JObj [("admin", JBool true)])])%list)
     = Ok MOCK_SESSION_RESPONSE
  /\ lookup "__proto__" (entries MOCK_SESSION_RESPONSE) = None.
Proof. repeat split. Qed.

(** ** C7: the 404 of the tests, a plain-text 503, and a 304 without body *)

Lemma api_error_of_failed_response_witness :
  (exists e,
      fst (rawRequest "test" (always (Responds not_found)) any_url test_client
             get_missing world0) = Err (APIError e)
      /\ statusCode e = 404%Z
      /\ errorBody e = JObj [("detail", JStr "Not found")]
      /\ path e = "missing"
      /\ message e = "Not found (missing)"
      /\ contains "Not found" (message e) = true)
  /\ fst (rawRequest "test" (always (Responds (text_response 503))) any_url
            test_client get_missing world0)
     = Err (TypeError "Body is unusable: Body has already been read")
  /\ (exists e,
        fst (rawRequest "test" (always (Responds (empty_response 304))) any_url
               test_client get_missing world0) = Err (APIError e)
        /\ statusCode e = 304%Z
        /\ errorBody e = JStr ""
        /\ message e = "API request failed with status 304 (missing)").
Proof.
  destruct (@api_error_of_failed_response Z _ "test"
              (always (Responds not_found)) any_url test_client get_missing
              world0 not_found eq_refl eq_refl eq_refl eq_refl)
    as [Hjson _].
  destruct (@api_error_of_failed_response Z _ "test"
              (always (Responds (text_response 503))) any_url test_client
              get_missing world0 (text_response 503) eq_refl eq_refl eq_refl
              eq_refl) as [_ [_ Htext]].
  destruct (@api_error_of_failed_response Z _ "test"
              (always (Responds (empty_response 304))) any_url test_client
              get_missing world0 (empty_response 304) eq_refl eq_refl eq_refl
              eq_refl) as [_ [Hnone _]].
  split; [|split].
  - destruct (Hjson (JObj [("detail", JStr "Not found")]) eq_refl)
      as [e [Hraise [Hstatus [Hbody [Hpath [Hmsg Hdetail]]]]]].
    exists e. split; [exact Hraise|]. split; [exact Hstatus|].
    split; [exact Hbody|]. split; [exact Hpath|].
    split; [rewrite Hmsg; reflexivity|].
    apply Hdetail. reflexivity.
  - exact (Htext _ eq_refl).
  - destruct (Hnone eq_refl) as [e [Hraise [Hstatus [Hbody [_ [Hmsg _]]]]]].
    exists e. split; [exact Hraise|]. split; [exact Hstatus|].
    split; [exact Hbody|]. rewrite Hmsg. reflexivity.
Defined.

(** ** C8: a timeout, a transport failure, and a body that cannot be
    serialised *)

(** [{ type: "click", selector: 10n }]: the schema of [execute] lets any
    [selector] through. *)
Definition click_bigint : @JSValue Z :=
  JObj [("type", JStr "click"); ("selector", JBigInt 10)].

Definition execute_click_bigint : @NotteEndpoint Z :=
  endpoint "sess-123/page/execute" POST ExecutionResponseSchema
    (Some click_bigint) None.

Lemma rawRequest_timeout_and_timer_witness :
  (exists e,
      fst (rawRequest "test" (always TimesOut) any_url test_client get_missing
             world0) = Err (APIError e)
      /\ statusCode e = 0%Z
      /\ message e = "Request timed out (missing)")
  /\ fst (rawRequest "test" (always (Fails (TypeError "fetch failed"))) any_url
            test_client get_missing world0)
     = Err (TypeError "fetch failed")
  /\ timers (snd (rawRequest "test" (always TimesOut) any_url test_client
                    get_missing world0)) = []
  /\ parse ExecutionRequestSchema click_bigint = Ok click_bigint
  /\ SessionsClient_execute "test" (always (Responds not_found)) any_url
       test_client "sess-123" click_bigint world0
     = (Err (TypeError "Do not know how to serialize a BigInt"),
        {| timers := [0]; next_timer := 1; fetched := [] |})
  /\ fst (rawRequest "test" (always (Responds not_found)) any_url test_client
            execute_click_bigint world0)
     = Err (TypeError "Do not know how to serialize a BigInt")
  /\ timers (snd (rawRequest "test" (always (Responds not_found)) any_url
                    test_client execute_click_bigint world0))
     = [timer_of world0]
  /\ fetched (snd (rawRequest "test" (always (Responds not_found)) any_url
                     test_client execute_click_bigint world0)) = [].
Proof.
  destruct (rawRequest_timeout_and_timer "test" (always TimesOut) any_url
              test_client get_missing world0) as [Htimeout _].
  destruct (rawRequest_timeout_and_timer "test"
              (always (Fails (TypeError "fetch failed"))) any_url
              test_client get_missing world0) as [_ [Hfails _]].
  destruct (rawRequest_timeout_and_timer "test" (always (Responds not_found))
              any_url test_client execute_click_bigint world0)
    as [_ [_ [_ [_ Hleak]]]].
  split; [|split; [|split; [|split; [|split]]]].
  - destruct (Htimeout eq_refl eq_refl eq_refl) as [e [H1 [H2 [H3 _]]]].
    exists e. repeat split; assumption.
  - apply (Hfails (TypeError "fetch failed")); reflexivity.
  - reflexivity.
  - reflexivity.
  - reflexivity.
  - exact (Hleak (TypeError "Do not know how to serialize a BigInt")
             eq_refl eq_refl).
Defined.

(** ** C9: cookies *)




(** ** The wrapper over the SDK's own client, on the tests' mocked fetch *)

(** [mockFetchSequence(bodies)]: the n-th call is answered with the n-th
    body, status 200. *)
Definition fetch_sequence (bodies : list (@JSValue Z))
    : list (@FetchCall Z) -> @FetchCall Z -> @FetchOutcome Z :=
  fun made _ =>
    match nth_error bodies (length made) with
    | Some body => Responds (json_response 200 body)
    | None => Fails (TypeError "fetch failed")
    end.

Definition mocked_client (bodies : list (@JSValue Z))
    : @SessionsClient Z (@World Z) :=
  sessions_client "test" (fetch_sequence bodies) any_url test_client.

Definition mocked_env : @Env Z (@World Z) := {| calls := []; server := world0 |}.

(** "stop() is idempotent": start, stop, stop. *)
Definition start_stop_stop : @Work Z (result (@OpValue Z)) :=
  Do DoStart (fun _ => Do DoStop (fun _ => Do DoStop (fun r => Return r))).

Example test_stop_is_idempotent :
  let ran := run_work
               (the_client := mocked_client
                                [MOCK_SESSION_RESPONSE; MOCK_STOPPED_RESPONSE])
               start_stop_stop (new_RemoteSession (JObj [])) mocked_env in
  outcome ran = Ok (Ok (VResponse (Some (as_SessionResponse MOCK_STOPPED_RESPONSE))))
  /\ isStopped (session_after ran) = true
  /\ map (fun c => (fc_method c, fc_url c)) (fetched (server (env_after ran)))
     = [ (POST, "https://api.notte.cc/sessions/start");
         (DELETE, "https://api.notte.cc/sessions/sess-456/stop") ]
  /\ timers (server (env_after ran)) = [].
Proof. vm_compute. repeat split. Qed.

(** "stops even on error": the work throws, fetch is called twice. *)
Example test_use_stops_even_on_error :
  let ran := use (the_client := mocked_client
                                  [MOCK_SESSION_RESPONSE; MOCK_STOPPED_RESPONSE])
               (JObj []) (Raise nat (Error "boom")) mocked_env in
  outcome ran = Err (Error "boom")
  /\ length (fetched (server (env_after ran))) = 2.
Proof. vm_compute. repeat split. Qed.

(** ** [buildUrl]: redundant slashes, and a prefix of slashes *)

Lemma buildUrl_ignores_junction_slashes_witness :
  buildUrl "https://api.notte.cc///" (Some "//sessions/") "//start"
  = buildUrl "https://api.notte.cc" (Some "sessions") "start".
Proof.
  apply (@buildUrl_ignores_junction_slashes "https://api.notte.cc" "sessions"
           "start" 3 2 1 2).
  discriminate.
Defined.

Lemma buildUrl_with_a_prefix_of_slashes_witness :
  buildUrl "https://api.notte.cc/" (Some "//") "/start"
  = "https://api.notte.cc//start"
  /\ buildUrl "https://api.notte.cc/" (Some "//") "" = "https://api.notte.cc/".
Proof.
  split.
  - apply (@buildUrl_with_a_prefix_of_slashes "https://api.notte.cc/" "//"
             "/start"); [discriminate | reflexivity].
  - apply (@buildUrl_with_a_prefix_of_slashes "https://api.notte.cc/" "//" "");
      [discriminate | reflexivity].
Defined.

(** ** The constructor: an explicit empty key hides the environment's *)

Definition env_with_key : ProcessEnv :=
  {| NOTTE_API_KEY := Some "env-key";
     NOTTE_API_URL := Some "http://localhost:8000" |}.

Lemma new_BaseClient_resolution_witness :
  (exists e, new_SessionsClient (number := Z) (Some env_with_key)
               {| opt_apiKey := Some ""; opt_serverUrl := None;
                  opt_timeoutMs := None |} = inl e
             /\ auth_message e = "NOTTE_API_KEY needs to be provided")
  /\ new_SessionsClient (number := Z) (Some env_with_key)
       {| opt_apiKey := None; opt_serverUrl := None; opt_timeoutMs := None |}
     = inr {| apiKey := "env-key"; serverUrl := "http://localhost:8000";
              timeoutMs := 60000%Z; baseEndpointPath := Some "sessions" |}.
Proof.
  split; [|reflexivity].
  pose proof (new_BaseClient_resolution (number := Z) (Some env_with_key)
                (Some "sessions")
                {| opt_apiKey := Some ""; opt_serverUrl := None;
                   opt_timeoutMs := None |}) as H.
  simpl in H. destruct H as [_ H].
  exists (new_AuthenticationError None). split; [reflexivity | exact H].
Defined.

(** ** The query string of [list] *)


(** ** Request validation before the network *)

Lemma unknown_parameter_stops_before_the_network_witness :
  exists issues,
    SessionsClient_start "test" (always TimesOut) any_url test_client
      (Some (JObj [("unknown_field", JBool true)])) world0
    = (Err (ZodError issues), world0).
Proof.
  destruct (@unknown_parameter_stops_before_the_network Z _ "test"
              (always TimesOut) any_url test_client "sess-123"
              [("unknown_field", JBool true)] "unknown_field" (JBool true)
              world0 eq_refl) as [Hstart _].
  exact (Hstart eq_refl).
Defined.

Lemma execute_requires_a_type_witness :
  exists issues,
    SessionsClient_execute "test" (always TimesOut) any_url test_client
      "sess-123" (JObj [("selector", JStr "#submit")]) world0
    = (Err (ZodError issues), world0).
Proof.
  apply (@execute_requires_a_type Z _ "test" (always TimesOut) any_url
           test_client "sess-123" (JObj [("selector", JStr "#submit")]) world0).
  intros s. discriminate.
Defined.

Lemma start_rejects_bad_durations_witness :
  exists issues,
    SessionsClient_start "test" (always TimesOut) any_url test_client
      (Some (JObj [("max_duration_minutes", JNum 0%Z)])) world0
    = (Err (ZodError issues), world0).
Proof.
  apply (@start_rejects_bad_durations Z _ "test" (always TimesOut) any_url
           test_client [("max_duration_minutes", JNum 0%Z)]
           "max_duration_minutes" 0%Z world0);
    [left; reflexivity | reflexivity | right; reflexivity].
Defined.

Lemma session_calls_return_validated_snapshots_witness :
  SessionsClient_start "test"
    (always (Responds (json_response 200 MOCK_SESSION_RESPONSE))) any_url
    test_client None world0
  = (Ok MOCK_SESSION_RESPONSE,
     {| timers := []; next_timer := 1;
        fetched := [sessions_call "test" test_client POST "/start"
                      (Some (JObj []))] |})
  /\ exists id st,
       get_prop "session_id" (entries MOCK_SESSION_RESPONSE) = JStr id
       /\ get_prop "status" (entries MOCK_SESSION_RESPONSE) = JStr st
       /\ In st session_statuses.
Proof.
  split; [reflexivity|].
  apply (@session_calls_return_validated_snapshots Z _ "test"
           (always (Responds (json_response 200 MOCK_SESSION_RESPONSE)))
           any_url test_client "sess-456" None world0
           {| timers := []; next_timer := 1;
              fetched := [sessions_call "test" test_client POST "/start"
                            (Some (JObj []))] |}
           MOCK_SESSION_RESPONSE).
  left. reflexivity.
Defined.

Lemma request_schema_acceptance_witness :
  In ScrapeRequestSchema request_schemas
  /\ is_ok (parse ScrapeRequestSchema
              (@JObj Z [("only_main_content", JBool true); ("unknown", JNull)]))
     = fields_valid ScrapeRequestSchema
         [("only_main_content", JBool true); ("unknown", @JNull Z)]
       && forallb (fun k => mem k (declared ScrapeRequestSchema))
            (keys [("only_main_content", JBool true); ("unknown", @JNull Z)]).
Proof.
  assert (Hin : In ScrapeRequestSchema request_schemas)
    by (right; right; left; reflexivity).
  split; [exact Hin|].
  apply (@request_schema_acceptance Z _ ScrapeRequestSchema
           [("only_main_content", JBool true); ("unknown", JNull)] Hin).
Defined.

Lemma proxy_settings_by_tag_witness :
  is_valid (zparse ProxySettingsSchema
              (@JObj Z [("type", JStr "socks"); ("server", JStr "h:1")])) = false
  /\ is_valid (zparse ProxySettingsSchema (@JObj Z [("type", JStr "external")]))
     = false
  /\ is_valid (zparse ProxySettingsSchema
                 (@JObj Z [("type", JStr "notte"); ("country", JStr "us");
                           ("extra", JBool true)])) = true
  /\ exists out,
       zparse ProxySettingsSchema
         (@JObj Z [("type", JStr "notte"); ("country", JStr "us");
                   ("extra", JBool true)]) = Valid (JObj out)
       /\ forall k, In k (keys out) -> In k ["type"; "id"; "country"].
Proof.
  destruct (@proxy_settings_by_tag Z _
              [("type", JStr "socks"); ("server", JStr "h:1")]) as [Htag _].
  destruct (@proxy_settings_by_tag Z _ [("type", JStr "external")])
    as [_ [Hserver _]].
  destruct (@proxy_settings_by_tag Z _
              [("type", JStr "notte"); ("country", JStr "us");
               ("extra", JBool true)]) as [_ [_ Hbranch]].
  destruct (Hbranch "notte" NotteProxySchema (or_introl eq_refl) eq_refl)
    as [Hvalid Hout].
  split; [apply Htag; discriminate|].
  split; [apply Hserver; [reflexivity | intros s; discriminate]|].
  split; [rewrite Hvalid; reflexivity|].
  destruct (Hout (JObj [("type", JStr "notte"); ("country", JStr "us")])
              eq_refl) as [out [Heq Hkeys]].
  exists out. split; [now rewrite <- Heq | exact Hkeys].
Defined.

Lemma cookie_shape_witness :
  is_ok (parse CookieSchema
           (@JObj Z [("name", JStr "sid"); ("value", JStr "abc");
                     ("domain", JStr "example.com"); ("httpOnly", JBool true)]))
  = false
  /\ lookup "priority"
       (entries
          (@JObj Z [("name", JStr "sid"); ("value", JStr "abc");
                    ("domain", JStr "example.com"); ("path", JStr "/");
                    ("httpOnly", JBool true); ("priority", JStr "High")]))
     = Some (JStr "High").
Proof.
  destruct (@cookie_shape Z _
              [("name", JStr "sid"); ("value", JStr "abc");
               ("domain", JStr "example.com"); ("httpOnly", JBool true)])
    as [Hstr _].
  destruct (@cookie_shape Z _
              [("name", JStr "sid"); ("value", JStr "abc");
               ("domain", JStr "example.com"); ("path", JStr "/");
               ("httpOnly", JBool true); ("priority", JStr "High")])
    as [_ [_ Hkeep]].
  split.
  - apply (Hstr "path"); [simpl; auto | intros s; discriminate].
  - apply (Hkeep _ eq_refl "priority" (JStr "High"));
      [reflexivity | reflexivity | discriminate | discriminate].
Defined.

(** ** A list response with an element that fails validation *)

Lemma requestList_is_all_or_nothing_witness :
  exists e,
    parse SessionResponseSchema (@JObj Z []) = Err e
    /\ fst (requestList "test"
              (always (Responds (json_response 200
                 (JArr [MOCK_SESSION_RESPONSE; JObj []; MOCK_STOPPED_RESPONSE]))))
              any_url test_client list_sessions world0)
       = Err e.
Proof.
  destruct (parse SessionResponseSchema (@JObj Z [])) as [v|e] eqn:Hbad;
    [discriminate Hbad|].
  assert (Hpre : Forall (fun item : @JSValue Z =>
                           is_ok (parse (responseSchema list_sessions) item)
                           = true) [MOCK_SESSION_RESPONSE])
    by (constructor; [reflexivity | constructor]).
  exists e. split; [reflexivity|].
  rewrite (@requestList_is_all_or_nothing Z _ "test"
             (always (Responds (json_response 200
                (JArr [MOCK_SESSION_RESPONSE; JObj []; MOCK_STOPPED_RESPONSE]))))
             any_url test_client list_sessions world0
             (snd (rawRequest "test"
                     (always (Responds (json_response 200
                        (JArr [MOCK_SESSION_RESPONSE; JObj [];
                               MOCK_STOPPED_RESPONSE]))))
                     any_url test_client list_sessions world0))
             [MOCK_SESSION_RESPONSE] [MOCK_STOPPED_RESPONSE] (JObj [])
             e eq_refl
             Hpre Hbad).
  reflexivity.
Defined.

(** ** The requests of the sessions client *)

Lemma one_fetch_per_request_witness :
  fetched (snd (request "test" (always (Responds not_found)) any_url
                  test_client get_missing world0))
  = [build_call "test" test_client get_missing]
  /\ is_ok (fst (request "test" (always (Responds not_found)) any_url
                   test_client execute_click_bigint world0)) = false
  /\ fetched (snd (request "test" (always (Responds not_found)) any_url
                     test_client execute_click_bigint world0)) = [].
Proof.
  destruct (@one_fetch_per_request Z _ "test" (always (Responds not_found))
              any_url test_client get_missing world0) as [Honce _].
  destruct (@one_fetch_per_request Z _ "test" (always (Responds not_found))
              any_url test_client execute_click_bigint world0) as [_ Hnone].
  assert (Hbad : stringify_error
                   (fc_body (build_call "test" test_client
                               execute_click_bigint)) <> None)
    by (simpl; discriminate).
  destruct (Honce eq_refl eq_refl) as [_ [Hreq _]].
  destruct (Hnone (or_intror Hbad)) as [_ [Hthrows [_ [_ [Hlog _]]]]].
  split; [exact Hreq|]. split; [exact Hthrows | exact Hlog].
Defined.

Lemma sessions_requests_witness :
  fetched (snd (SessionsClient_stop "test" (always TimesOut) any_url
                  test_client "sess-123" world0))
  = [ {| fc_url := "https://api.notte.cc/sessions/sess-123/stop";
         fc_query := [];
         fc_method := DELETE;
         fc_headers := getHeaders "test" test_client;
         fc_body := None |} ]
  /\ fetched (snd (SessionsClient_execute "test" (always TimesOut) any_url
                     test_client "sess-123"
                     (JObj [("type", JStr "click"); ("id", JStr "B1")]) world0))
     = [ {| fc_url := "https://api.notte.cc/sessions/sess-123/page/execute";
            fc_query := [];
            fc_method := POST;
            fc_headers := getHeaders "test" test_client;
            fc_body := Some (JObj [("type", JStr "click"); ("id", JStr "B1")]) |} ].
Proof.
  destruct (@sessions_requests Z _ "test" (always TimesOut) any_url
              test_client "sess-123" world0 eq_refl ltac:(discriminate) eq_refl)
    as [Hstop [_ [_ [_ [_ [_ [_ Hexecute]]]]]]].
  split.
  - exact (Hstop eq_refl eq_refl).
  - exact (Hexecute (JObj [("type", JStr "click"); ("id", JStr "B1")])
             (JObj [("type", JStr "click"); ("id", JStr "B1")])
             eq_refl eq_refl eq_refl).
Defined.

Lemma request_returns_validated_json_witness :
  request "test" (always (Responds (json_response 200
            (JObj [("detail", JStr "x")])))) any_url test_client get_missing
    world0
  = (Ok (JObj []),
     {| timers := []; next_timer := 1;
        fetched := [build_call "test" test_client get_missing] |})
  /\ exists r raw,
       always (Responds (json_response 200 (JObj [("detail", JStr "x")])))
         (fetched world0) (build_call "test" test_client get_missing)
       = Responds r
       /\ ok r = true
       /\ json r = Ok raw
       /\ parse (responseSchema get_missing) raw = Ok (JObj []).
Proof.
  assert (Hreq :
    request "test" (always (Responds (json_response 200
              (JObj [("detail", JStr "x")])))) any_url test_client get_missing
      world0
    = (Ok (JObj []),
       {| timers := []; next_timer := 1;
          fetched := [build_call "test" test_client get_missing] |}))
    by reflexivity.
  split; [exact Hreq|].
  exact (proj2 (@request_returns_validated_json Z _ "test" _ any_url
                  test_client get_missing world0 _ _ Hreq)).
Defined.

(** ** The lifecycle of a wrapper *)

Definition start_then_stop : @Work Z nat :=
  Do DoStart (fun _ => Do DoStop (fun _ => Return 0)).

Lemma start_is_single_shot_witness :
  start (the_client := healthy) stopped_session
    {| calls := [CallStart (JObj []); CallStop "sess-456"]; server := 2 |}
  = (Err (Error "Session already started"), stopped_session,
     {| calls := [CallStart (JObj []); CallStop "sess-456"]; server := 2 |}).
Proof.
  apply (@start_is_single_shot Z nat healthy (new_RemoteSession (JObj []))
           started_session env0
           {| calls := [CallStart (JObj [])]; server := 1 |}
           active_response eq_refl ltac:(discriminate) nat
           (Do DoStop (fun _ => Return 0))).
Defined.

Lemma unstarted_wrapper_refuses_witness :
  run_op (the_client := healthy) (DoScrape None) (new_RemoteSession (JObj []))
    env0
  = (Err not_started_error, new_RemoteSession (JObj []), env0)
  /\ run_op (the_client := healthy) DoStop (fromId "") env0
     = (Err (Error "Session has not been started"), fromId "", env0).
Proof.
  split.
  - apply (@unstarted_wrapper_refuses Z nat healthy (DoScrape None)
             (new_RemoteSession (JObj [])) env0 eq_refl eq_refl eq_refl).
  - apply (@unstarted_wrapper_refuses Z nat healthy DoStop (fromId "") env0
             eq_refl eq_refl eq_refl).
Defined.

Lemma page_operations_forward_one_call_witness :
  session_after (run_op (the_client := healthy) (DoScrape None)
                   stopped_session env0) = stopped_session
  /\ calls (env_after (run_op (the_client := healthy) (DoScrape None)
                         stopped_session env0))
     = [CallScrape "sess-456" None].
Proof.
  destruct (@page_operations_forward_one_call Z nat healthy (DoScrape None)
              stopped_session env0 "sess-456" (CallScrape "sess-456" None)
              eq_refl ltac:(discriminate) eq_refl) as [Hs [Hc _]].
  split; [exact Hs | exact Hc].
Defined.

Lemma asyncDispose_stops_once_witness :
  asyncDispose (the_client := healthy) (new_RemoteSession (JObj [])) env0
  = (Ok tt, new_RemoteSession (JObj []), env0)
  /\ stop_calls (env_after (asyncDispose (the_client := healthy)
                              started_session env0)) = 1
  /\ session_after (asyncDispose (the_client := healthy) started_session env0)
     = stopped_session.
Proof.
  destruct (asyncDispose_stops_once (the_client := healthy)
              (new_RemoteSession (JObj [])) env0) as [Hidle _].
  destruct (asyncDispose_stops_once (the_client := healthy) started_session
              env0) as [_ Hlive].
  destruct (Hlive eq_refl eq_refl) as [Hn [Hs _]].
  split; [apply Hidle; left; reflexivity|].
  split; [exact Hn | exact Hs].
Defined.

Lemma use_does_nothing_when_start_fails_witness :
  use (the_client := flaky) (JObj []) scrape_then_boom env0
  = (Err (Error "fetch failed"), new_RemoteSession (JObj []),
     {| calls := [CallStart (JObj [])]; server := 1 |}).
Proof.
  exact (proj1 (@use_does_nothing_when_start_fails Z nat flaky nat (JObj [])
                  scrape_then_boom env0 (Error "fetch failed") 1 eq_refl)).
Defined.

Lemma use_reports_a_failed_stop_witness :
  outcome (use (the_client := stop_fails) (JObj []) (Return 7) env0)
  = Err (Error "stop failed").
Proof.
  apply (@use_reports_a_failed_stop Z nat stop_fails nat (JObj []) (Return 7)
           env0 active_response 1 2 (Error "stop failed") eq_refl
           ltac:(discriminate) (ou_Return _ 7) eq_refl).
Defined.

Lemma wrapper_calls_carry_its_identifier_witness :
  exists new,
    calls (env_after (run_work (the_client := healthy) scrape_then_boom
                        started_session env0)) = (calls env0 ++ new)%list
    /\ Forall (fun c => call_session c = Some "sess-456") new.
Proof.
  apply (@wrapper_calls_carry_its_identifier Z nat healthy nat scrape_then_boom
           started_session env0 "sess-456" eq_refl ltac:(discriminate)).
  apply ou_Do; [reflexivity|]. intros r. apply ou_Raise.
Defined.

Lemma lifecycle_moves_forward_witness :
  session_after (run_op (the_client := healthy) (DoScrape None)
                   started_session env0) = started_session
  /\ _stopped (session_after (run_work (the_client := healthy) start_then_stop
                                stopped_session env0)) = true.
Proof.
  destruct (lifecycle_moves_forward (number := Z) (the_client := healthy))
    as [Hframe Hwork].
  split; [apply Hframe; reflexivity|].
  destruct (Hwork nat start_then_stop stopped_session env0) as [_ [_ Hst]].
  apply Hst. reflexivity.
Defined.

Lemma stop_never_returns_null_witness :
  (exists r,
      outcome (stop (the_client := healthy)
                 (session_after (run_work (the_client := healthy)
                                   start_then_stop (new_RemoteSession (JObj []))
                                   env0))
                 (env_after (run_work (the_client := healthy)
                               start_then_stop (new_RemoteSession (JObj []))
                               env0))) = Ok (Some r))
  /\ is_ok (sessionId (session_after (run_work (the_client := healthy)
                                        start_then_stop
                                        (new_RemoteSession (JObj [])) env0)))
     = true.
Proof.
  destruct (@stop_never_returns_null Z nat healthy nat start_then_stop
              (new_RemoteSession (JObj [])) env0
              (or_introl (ex_intro _ (JObj []) eq_refl))) as [Hr Hid].
  split; [|apply Hid; reflexivity].
  destruct (outcome (stop (the_client := healthy)
                 (session_after (run_work (the_client := healthy)
                                   start_then_stop (new_RemoteSession (JObj []))
                                   env0))
                 (env_after (run_work (the_client := healthy)
                               start_then_stop (new_RemoteSession (JObj []))
                               env0)))) as [[r|]|e] eqn:Hstop.
  - exists r. reflexivity.
  - exfalso. exact (Hr None eq_refl eq_refl).
  - discriminate Hstop.
Defined.
